(** * google-drive-sync-latest: a shallow embedding of [main.go]

    The program authenticates against the Drive API, resolves one folder
    by name, lists its newest children and downloads the ones that are
    not yet present in a local target directory.

    Go strings are byte sequences, so they are modelled by [string]
    (a sequence of 8-bit [ascii] values).  The filesystem is a finite map
    from paths to nodes, the remote service is a record of responses, and
    the program runs in a small monad that threads the filesystem, the
    list of observable events and the way the process ends.

    [DownloadFile] is defined in [main.go] but never called; it is left
    out. *)

From Stdlib Require Import Ascii ZArith Lia.
From Equations Require Import Equations.
From stdpp Require Import base option list gmap strings.

Local Open Scope Z_scope.
Local Open Scope stdpp_scope.

(** ** Package regexp, as far as [re] needs it *)

Module Regexp.

(** One item of a bracket expression: a range [lo-hi] or a single
    character. *)
Inductive ClassItem : Type :=
| Range (lo hi : ascii)
| Single (c : ascii).

(** A compiled pattern of the shape [[...]+] or [[^...]+]: one or more
    repetitions (greedy) of one bracket expression. *)
Record Regexp : Type := MustCompile {
  negated : bool;
  items : list ClassItem
}.

Definition itemMatches (c : ascii) (i : ClassItem) : bool :=
  match i with
  | Range lo hi => (nat_of_ascii lo <=? nat_of_ascii c)%nat
                   && (nat_of_ascii c <=? nat_of_ascii hi)%nat
  | Single d => Ascii.eqb c d
  end.

(** Does the bracket expression of [r] accept the byte [c]?  Go's
    matcher walks runes, not bytes; every byte of a multi-byte rune and
    every ill-formed byte (decoded as U+FFFD, one byte wide) is at least
    0x80, so for a class of ASCII items the runs of accepted runes and
    the runs of accepted bytes are the same stretches of the input.  A
    negated class accepts the newline as well (flag ClassNL of
    syntax.Perl). *)
Definition classMatches (r : Regexp) (c : ascii) : bool :=
  xorb (negated r) (existsb (itemMatches c) (items r)).

(** Length of the greedy match of [r] at the start of [s]: the number of
    leading bytes the class accepts; [0] means no match here. *)
Fixpoint matchLen (r : Regexp) (s : string) : nat :=
  match s with
  | EmptyString => 0%nat
  | String c s' => if classMatches r c then S (matchLen r s') else 0%nat
  end.

Fixpoint drop (n : nat) (s : string) : string :=
  match n, s with
  | O, _ => s
  | S n', EmptyString => EmptyString
  | S n', String _ s' => drop n' s'
  end.

(** [re.ReplaceAllString(src, repl)] for a replacement without [$]:
    scan [src] from the left; where the pattern matches, emit [repl] and
    resume after the match; elsewhere copy the byte. *)
Equations? ReplaceAllString (r : Regexp) (src repl : string) : string
  by wf (String.length src) lt :=
  ReplaceAllString r EmptyString repl := EmptyString;
  ReplaceAllString r (String c s') repl with matchLen r (String c s') := {
    | O => String c (ReplaceAllString r s' repl);
    | S n => repl +:+ ReplaceAllString r (drop n s') repl }.
Proof.
  - simpl; lia.
  - assert (Hdrop : forall k t,
               (String.length (drop k t) <= String.length t)%nat).
    { intros k; induction k as [|k IH]; intros [|d t]; simpl; try lia.
      specialize (IH t); lia. }
    specialize (Hdrop n s'); simpl; lia.
Qed.

End Regexp.

(** ** The helpers of [main.go] that do not touch the outside world *)

(** [var re = regexp.MustCompile(`[^a-zA-Z0-9._-]+`)] *)
Definition re : Regexp.Regexp :=
  Regexp.MustCompile true
    [Regexp.Range "a" "z"; Regexp.Range "A" "Z"; Regexp.Range "0" "9";
     Regexp.Single "."; Regexp.Single "_"; Regexp.Single "-"].

Definition cleanFilename (in_ : string) : string :=
  Regexp.ReplaceAllString re in_ "_".

(** ** Values of the libraries *)

Inductive Errno : Type :=
| ENOENT | EACCES | EISDIR | ENOTDIR | ENAMETOOLONG | ELOOP | EIO.

Definition errnoText (e : Errno) : string :=
  match e with
  | ENOENT => "no such file or directory"
  | EACCES => "permission denied"
  | EISDIR => "is a directory"
  | ENOTDIR => "not a directory"
  | ENAMETOOLONG => "file name too long"
  | ELOOP => "too many levels of symbolic links"
  | EIO => "input/output error"
  end.

(** Go's [error] values: the [*os.PathError] of package os, and the
    errors of the other libraries, known by their text only. *)
Inductive error : Type :=
| PathError (op path : string) (e : Errno)
| errorString (text : string).

Definition Error (err : error) : string :=
  match err with
  | PathError op path e => op +:+ " " +:+ path +:+ ": " +:+ errnoText e
  | errorString text => text
  end.

(** A call that returns [(value, err)]. *)
Inductive result (A : Type) : Type :=
| Ok (a : A)
| Err (err : error).
Arguments Ok {A} a.
Arguments Err {A} err.

(** [time.Time]: an instant, in nanoseconds since the Unix epoch. *)
Record Time : Type := mkTime { UnixNano : Z }.

(** [time.RFC3339Nano] *)
Definition RFC3339Nano : string := "2006-01-02T15:04:05.999999999Z07:00".

(** [os.FileInfo], as far as the program looks at it. *)
Record FileInfo : Type := { IsDir : bool }.

(** [oauth2.Config], [oauth2.Token], [http.Client], [drive.Service] *)
Record Config : Type := { ClientID : string; ClientSecret : string; Scopes : list string }.
Record Token : Type := { AccessToken : string; RefreshToken : string; Expiry : string }.
Record Client : Type := { clientConfig : Config; clientToken : Token }.
Record Service : Type := { serviceClient : Client }.

Definition DriveReadonlyScope : string :=
  "https://www.googleapis.com/auth/drive.readonly".

(** [drive.File] and [drive.FileList] *)
Record DriveFile : Type := {
  Id : string;
  Name : string;
  CreatedTime : string;
  ModifiedTime : string;
  WebContentLink : string
}.

Record FileList : Type := { Files : list DriveFile; NextPageToken : string }.

(** [drive.FilesListCall]: the parameters set on the request so far. *)
Record FilesListCall : Type := {
  q : option string;
  pageSize : option Z;
  orderBy : option string;
  fields : option string;
  pageToken : option string
}.

Definition Files_List : FilesListCall :=
  {| q := None; pageSize := None; orderBy := None; fields := None;
     pageToken := None |}.
Definition Q (s : string) (c : FilesListCall) : FilesListCall :=
  {| q := Some s; pageSize := pageSize c; orderBy := orderBy c;
     fields := fields c; pageToken := pageToken c |}.
Definition PageSize (n : Z) (c : FilesListCall) : FilesListCall :=
  {| q := q c; pageSize := Some n; orderBy := orderBy c;
     fields := fields c; pageToken := pageToken c |}.
Definition OrderBy (s : string) (c : FilesListCall) : FilesListCall :=
  {| q := q c; pageSize := pageSize c; orderBy := Some s;
     fields := fields c; pageToken := pageToken c |}.
Definition Fields (s : string) (c : FilesListCall) : FilesListCall :=
  {| q := q c; pageSize := pageSize c; orderBy := orderBy c;
     fields := Some s; pageToken := pageToken c |}.

(** [http.Response]: the body the server sends, and, when the transfer
    breaks, the number of bytes that arrive before the read error. *)
Record Response : Type := { Body : string; BodyBreaksAfter : option nat }.

(** ** The outside world *)

(** What the program cannot decide for itself: the parsers of the
    libraries, the operator at the terminal and the answers of the remote
    service. *)
Record Env : Type := {
  time_Parse : string -> string -> result Time;
  google_ConfigFromJSON : string -> string -> result Config;
  json_DecodeToken : string -> result Token;
  json_EncodeToken : Token -> string;
  config_AuthCodeURL : Config -> string;
  fmt_Scan : result string;
  config_Exchange : Config -> string -> result Token;
  drive_New : Client -> option error;
  remote_FilesList : FilesListCall -> result FileList;
  remote_Download : string -> result Response
}.

(** A path of the local filesystem leads to a regular file, to a
    directory, or nowhere because resolving it fails with some [Errno]
    (a parent that may not be searched, a name that is too long, ...).
    A path that is not in the map does not exist.

    The map is keyed by the path as the program writes it.  It has no
    tree: parents are not derived from a path, two spellings of one
    place ([dir/.] and [dir]) are two keys, and nodes that are neither
    regular files nor directories (FIFOs, sockets, devices) have no
    place in it.  The properties below that speak of a path speak of
    that key. *)
Inductive Node : Type :=
| File (data : string) (atime mtime : Time)
| Dir
| Unreachable (e : Errno).

(** The mutable part: the filesystem and the clock that stamps files. *)
Record World : Type := { fs : gmap string Node; clock : Time }.

Definition setFs (m : gmap string Node) (w : World) : World :=
  {| fs := m; clock := clock w |}.

Inductive FsCall : Type :=
| SysMkdirAll (path : string)
| SysReadFile (path : string)
| SysOpen (path : string)
| SysOpenFile (path : string)
| SysStat (path : string)
| SysCreate (path : string)
| SysWrite (path data : string)
| SysClose (path : string)
| SysChtimes (path : string) (atime mtime : Time).

Inductive NetCall : Type :=
| NetExchange (code : string)
| NetFilesList (c : FilesListCall)
| NetDownload (fileId : string)
| NetReadBody
| NetCloseBody.

(** What an observer of the process sees, in order of occurrence.  The
    lines of package log are recorded without their date prefix. *)
Inductive Event : Type :=
| Stdout (text : string)
| Stderr (text : string)
| Stdin
| Fs (c : FsCall)
| Net (c : NetCall).

(** ** The monad of the program *)

(** A computation returns, or the process exits ([os.Exit], which
    [log.Fatalf] calls), or it panics. *)
Inductive Outcome (A : Type) : Type :=
| Return (a : A)
| Exit (code : Z)
| Panic (text : string).
Arguments Return {A} a.
Arguments Exit {A} code.
Arguments Panic {A} text.

Record Run (A : Type) : Type := mkRun {
  outcome : Outcome A;
  world : World;
  events : list Event
}.
Arguments mkRun {A}.
Arguments outcome {A}.
Arguments world {A}.
Arguments events {A}.

Definition M (A : Type) : Type := World -> Run A.

#[global] Instance M_ret : MRet M := fun A a w => mkRun (Return a) w [].

(** The events [evs] happened before the run [r]. *)
Definition after {A} (evs : list Event) (r : Run A) : Run A :=
  match r with
  | mkRun o w evs' => mkRun o w (evs ++ evs')
  end.

#[global] Instance M_bind : MBind M := fun A B k m w =>
  match m w with
  | mkRun (Return a) w' evs => after evs (k a w')
  | mkRun (Exit code) w' evs => mkRun (Exit code) w' evs
  | mkRun (Panic text) w' evs => mkRun (Panic text) w' evs
  end.

Definition emit (e : Event) : M unit := fun w => mkRun (Return tt) w [e].
Definition exit {A} (code : Z) : M A := fun w => mkRun (Exit code) w [].
Definition panic {A} (text : string) : M A := fun w => mkRun (Panic text) w [].
Definition getWorld : M World := fun w => mkRun (Return w) w [].
Definition putFs (m : gmap string Node) : M unit :=
  fun w => mkRun (Return tt) (setFs m w) [].

(** The status the process ends with: 0 when [main] returns, the code of
    [os.Exit], 2 when the Go runtime reports a panic. *)
Definition exitStatus {A} (o : Outcome A) : Z :=
  match o with
  | Return _ => 0
  | Exit code => code
  | Panic _ => 2
  end.

(** ** Packages fmt, log, os and io *)

Definition nl : string := String "010"%char EmptyString.

Fixpoint joinSpace (args : list string) : string :=
  match args with
  | [] => ""
  | [a] => a
  | a :: rest => a +:+ " " +:+ joinSpace rest
  end.

(** [fmt.Sprintln]: operands separated by spaces, newline appended. *)
Definition Sprintln (args : list string) : string := joinSpace args +:+ nl.

Definition fmt_Println (args : list string) : M unit := emit (Stdout (Sprintln args)).
Definition fmt_Printf (text : string) : M unit := emit (Stdout text).
Definition log_Println (args : list string) : M unit := emit (Stderr (Sprintln args)).

Fixpoint endsWithNewline (s : string) : bool :=
  match s with
  | EmptyString => false
  | String c EmptyString => Ascii.eqb c "010"
  | String _ s' => endsWithNewline s'
  end.

(** A line as package log writes it: a newline is appended if the last
    character of the message is not already a newline. *)
Definition logLine (text : string) : string :=
  if endsWithNewline text then text else text +:+ nl.

(** [log.Fatalf]: the formatted line, then [os.Exit(1)]. *)
Definition log_Fatalf {A} (text : string) : M A :=
  emit (Stderr (logLine text)) ;; exit 1.

(** [os.IsNotExist] *)
Definition os_IsNotExist (err : option error) : bool :=
  match err with
  | Some (PathError _ _ ENOENT) => true
  | _ => false
  end.

(** [os.Stat]: on an error the [FileInfo] is nil. *)
Definition os_Stat (name : string) : M (option FileInfo * option error) :=
  emit (Fs (SysStat name)) ;;
  w ← getWorld ;
  mret (match fs w !! name with
        | Some (File _ _ _) => (Some {| IsDir := false |}, None)
        | Some Dir => (Some {| IsDir := true |}, None)
        | Some (Unreachable e) => (None, Some (PathError "stat" name e))
        | None => (None, Some (PathError "stat" name ENOENT))
        end).

(** [os.MkdirAll]: nothing to do for a directory, ENOTDIR for a file.
    In the map without a tree the call makes the one key [path]; the
    parents it would make on the way are not keys of their own. *)
Definition os_MkdirAll (path : string) : M (option error) :=
  emit (Fs (SysMkdirAll path)) ;;
  w ← getWorld ;
  match fs w !! path with
  | Some Dir => mret None
  | Some (File _ _ _) => mret (Some (PathError "mkdir" path ENOTDIR))
  | Some (Unreachable e) => mret (Some (PathError "mkdir" path e))
  | None => putFs (<[path := Dir]> (fs w)) ;; mret None
  end.

(** [ioutil.ReadFile] *)
Definition ioutil_ReadFile (filename : string) : M (result string) :=
  emit (Fs (SysReadFile filename)) ;;
  w ← getWorld ;
  mret (match fs w !! filename with
        | Some (File data _ _) => Ok data
        | Some Dir => Err (PathError "read" filename EISDIR)
        | Some (Unreachable e) => Err (PathError "open" filename e)
        | None => Err (PathError "open" filename ENOENT)
        end).

(** An open file is known by the path it was opened at. *)
Definition Handle : Type := string.

(** [os.Open]: read-only; a directory can be opened too. *)
Definition os_Open (name : string) : M (result Handle) :=
  emit (Fs (SysOpen name)) ;;
  w ← getWorld ;
  mret (match fs w !! name with
        | Some (File _ _ _) | Some Dir => Ok name
        | Some (Unreachable e) => Err (PathError "open" name e)
        | None => Err (PathError "open" name ENOENT)
        end).

(** Opening with [O_RDWR|O_CREATE|O_TRUNC]: a missing file is created
    empty, an existing one is cut to length 0, a directory is EISDIR.
    A place where nothing can be created is a key that is [Unreachable]
    in the map. *)
Definition openTrunc (name : string) : M (result Handle) :=
  w ← getWorld ;
  match fs w !! name with
  | None =>
      putFs (<[name := File "" (clock w) (clock w)]> (fs w)) ;; mret (Ok name)
  | Some (File _ atime _) =>
      putFs (<[name := File "" atime (clock w)]> (fs w)) ;; mret (Ok name)
  | Some Dir => mret (Err (PathError "open" name EISDIR))
  | Some (Unreachable e) => mret (Err (PathError "open" name e))
  end.

(** [os.OpenFile(name, os.O_RDWR|os.O_CREATE|os.O_TRUNC, perm)] *)
Definition os_OpenFile (name : string) : M (result Handle) :=
  emit (Fs (SysOpenFile name)) ;; openTrunc name.

(** [os.Create(name)] is [OpenFile(name, O_RDWR|O_CREATE|O_TRUNC, 0666)]. *)
Definition os_Create (name : string) : M (result Handle) :=
  emit (Fs (SysCreate name)) ;; openTrunc name.

(** [f.Write]: the data goes to the end of the file. *)
Definition file_Write (f : Handle) (data : string) : M unit :=
  emit (Fs (SysWrite f data)) ;;
  w ← getWorld ;
  match fs w !! f with
  | Some (File old atime _) =>
      putFs (<[f := File (old +:+ data) atime (clock w)]> (fs w))
  | _ => mret tt
  end.

Definition file_Close (f : Handle) : M unit := emit (Fs (SysClose f)).
Definition body_Close (resp : Response) : M unit := emit (Net NetCloseBody).

(** An exact number as an [int64]: the value that is left after the
    wrap-around of two's complement arithmetic. *)
Definition int64 (z : Z) : Z := (z + 2 ^ 63) mod 2 ^ 64 - 2 ^ 63.

(** The zero [time.Time], January 1 of the year 1, 00:00:00 UTC, and
    [Time.IsZero]. *)
Definition zeroTime : Time := mkTime (-62135596800000000000).
Definition IsZero (t : Time) : bool := UnixNano t =? UnixNano zeroTime.

(** The time a file has after [os.Chtimes] was given [t], when it had
    [old]: the zero time leaves the old one (UTIME_OMIT); any other time
    goes to the kernel as the timespec of [t.UnixNano()], an [int64] of
    nanoseconds, which wraps for instants before 1678 or after 2262. *)
Definition utime (t old : Time) : Time :=
  if IsZero t then old else mkTime (int64 (UnixNano t)).


(** [os.Chtimes] *)
Definition os_Chtimes (name : string) (atime mtime : Time) : M (option error) :=
  emit (Fs (SysChtimes name atime mtime)) ;;
  w ← getWorld ;
  match fs w !! name with
  | Some (File data oldAtime oldMtime) =>
      putFs (<[name := File data (utime atime oldAtime) (utime mtime oldMtime)]>
               (fs w)) ;;
      mret None
  | Some Dir => mret None
  | Some (Unreachable e) => mret (Some (PathError "chtimes" name e))
  | None => mret (Some (PathError "chtimes" name ENOENT))
  end.

(** What of the body reaches the reader. *)
Definition received (resp : Response) : string :=
  match BodyBreaksAfter resp with
  | None => Body resp
  | Some n => String.substring 0 n (Body resp)
  end.

(** [io.Copy(dst, src)]: writes what can be read, and returns the number
    of bytes written and the read error, if any. *)
Definition io_Copy (dst : Handle) (src : Response) : M (Z * option error) :=
  emit (Net NetReadBody) ;;
  file_Write dst (received src) ;;
  mret (Z.of_nat (String.length (received src)),
        match BodyBreaksAfter src with
        | None => None
        | Some _ => Some (errorString "unexpected EOF")
        end).

Fixpoint forEach {A} (body : A -> M unit) (l : list A) : M unit :=
  match l with
  | [] => mret tt
  | x :: rest => body x ;; forEach body rest
  end.

(** The texts of the run-time panics. *)
Definition nilDereference : string :=
  "runtime error: invalid memory address or nil pointer dereference".
Definition indexOutOfRange : string :=
  "runtime error: index out of range [0] with length 0".

(** ** The program *)

Section Program.

Context (env : Env).

Definition json_Decode (f : Handle) : M (result Token) :=
  w ← getWorld ;
  mret (match fs w !! f with
        | Some (File data _ _) => json_DecodeToken env data
        | _ => Err (PathError "read" f EISDIR)
        end).

Definition Files_List_Do (srv : Service) (c : FilesListCall) : M (result FileList) :=
  emit (Net (NetFilesList c)) ;; mret (remote_FilesList env c).

Definition Files_Get_Download (srv : Service) (fileId : string) : M (result Response) :=
  emit (Net (NetDownload fileId)) ;; mret (remote_Download env fileId).

(** Request a token from the web, then returns the retrieved token. *)
Definition getTokenFromWeb (config : Config) : M Token :=
  let authURL := config_AuthCodeURL env config in
  fmt_Printf ("Go to the following link in your browser then type the "
              +:+ "authorization code: " +:+ nl +:+ authURL +:+ nl) ;;
  emit Stdin ;;
  match fmt_Scan env with
  | Err err => log_Fatalf ("Unable to read authorization code " +:+ Error err)
  | Ok authCode =>
      emit (Net (NetExchange authCode)) ;;
      match config_Exchange env config authCode with
      | Err err => log_Fatalf ("Unable to retrieve token from web " +:+ Error err)
      | Ok tok => mret tok
      end
  end.

(** Retrieves a token from a local file. *)
Definition tokenFromFile (file : string) : M (result Token) :=
  r ← os_Open file ;
  match r with
  | Err err => mret (Err err)
  | Ok f =>
      tok ← json_Decode f ;
      file_Close f ;;
      mret tok
  end.

(** Saves a token to a file path. *)
Definition saveToken (path : string) (token : Token) : M unit :=
  fmt_Printf ("Saving credential file to: " +:+ path +:+ nl) ;;
  r ← os_OpenFile path ;
  match r with
  | Err err => log_Fatalf ("Unable to cache oauth token: " +:+ Error err)
  | Ok f =>
      file_Write f (json_EncodeToken env token +:+ nl) ;;
      file_Close f
  end.

(** Retrieve a token, saves the token, then returns the generated client. *)
Definition getClient (config : Config) : M Client :=
  let tokFile := "token.json" in
  r ← tokenFromFile tokFile ;
  tok ← match r with
        | Ok tok => mret tok
        | Err _ =>
            tok ← getTokenFromWeb config ;
            saveToken tokFile tok ;;
            mret tok
        end ;
  mret {| clientConfig := config; clientToken := tok |}.

(** [info] is nil whenever [os.Stat] reports an error, and the method
    call on it panics. *)
Definition fileExists (filename : string) : M bool :=
  '(info, err) ← os_Stat filename ;
  if os_IsNotExist err then mret false
  else match info with
       | Some i => mret (negb (IsDir i))
       | None => panic nilDereference
       end.

Definition outName (targetDir : string) (f : DriveFile) : string :=
  targetDir +:+ "/" +:+ cleanFilename (Name f).

(** The body of the loop over [files.Files]; a [continue] ends it. *)
Definition syncEntry (srv : Service) (targetDir : string) (f : DriveFile) : M unit :=
  log_Println ["Found file"; Name f; Id f; CreatedTime f] ;;
  let outName := outName targetDir f in
  log_Println [">> Outfile name is"; outName] ;;
  present ← fileExists outName ;
  if present : bool then
    log_Println [">> File already exists"; outName]
  else
    log_Println [">> Downloading to"; outName] ;;
    r ← Files_Get_Download srv (Id f) ;
    match r with
    | Err _ => log_Println [">> Failed to download"]
    | Ok resp =>
        log_Println [">> Download response OK"] ;;
        r ← os_Create outName ;
        match r with
        | Err err =>
            log_Println [">> Failed to create filename"; Error err; outName] ;;
            body_Close resp
        | Ok out =>
            io_Copy out resp ;;
            body_Close resp ;;
            file_Close out ;;
            log_Println ["mtime"; ModifiedTime f] ;;
            match time_Parse env RFC3339Nano (ModifiedTime f) with
            | Err _ => log_Println [">> WARN: Failed to parse modified time"]
            | Ok t =>
                err ← os_Chtimes outName t t ;
                match err with
                | Some _ => log_Println [">> WARN: Failed to change creation time"]
                | None => mret tt
                end
            end ;;
            log_Println [">> Storing as file OK"]
        end
    end.

Definition folderQuery (srcDir : string) : FilesListCall :=
  Fields "files(id, name)"
    (PageSize 1
      (Q ("mimeType = 'application/vnd.google-apps.folder' and name = '"
          +:+ srcDir +:+ "'") Files_List)).

Definition childrenQuery (folderId : string) : FilesListCall :=
  Fields "files(id, name, modifiedTime)"
    (OrderBy "createdTime desc"
      (PageSize 25
        (Q ("'" +:+ folderId +:+ "' in parents") Files_List))).

(** [main], given [os.Args]. *)
Definition main (Args : list string) : M unit :=
  match Args with
  | [_; srcDir; targetDir; credFile] =>
      log_Println ["Arguments:"; srcDir; targetDir; credFile] ;;
      err ← os_MkdirAll targetDir ;
      match err with
      | Some err => log_Fatalf ("Unable to create target dir: " +:+ Error err)
      | None =>
      b ← ioutil_ReadFile credFile ;
      match b with
      | Err err => log_Fatalf ("Unable to read client secret file: " +:+ Error err)
      | Ok b =>
      match google_ConfigFromJSON env b DriveReadonlyScope with
      | Err err =>
          log_Fatalf ("Unable to parse client secret file to config: " +:+ Error err)
      | Ok config =>
      client ← getClient config ;
      match drive_New env client with
      | Some err => log_Fatalf ("Unable to retrieve Drive client: " +:+ Error err)
      | None =>
      let srv := {| serviceClient := client |} in
      folders ← Files_List_Do srv (folderQuery srcDir) ;
      match folders with
      | Err err => log_Fatalf ("Unable to retrieve folders: " +:+ Error err)
      | Ok folders =>
      match Files folders with
      | [] => log_Fatalf "No folders found."
      | folder :: _ =>
      log_Println ["Found folder"; Name folder; Id folder] ;;
      files ← Files_List_Do srv (childrenQuery (Id folder)) ;
      match files with
      | Err err => log_Fatalf ("Unable to retrieve files: " +:+ Error err)
      | Ok files =>
      match Files files with
      | [] => log_Fatalf "No files found."
      | _ => forEach (syncEntry srv targetDir) (Files files)
      end end end end end end end end
  | [] => panic indexOutOfRange
  | arg0 :: _ =>
      fmt_Println ["Usage:"; arg0; "SRC_DIR"; "TARGET_DIR"; "CRED_FILE"]
  end.

(** *** The two halves of [main]

    For the proofs, the body of [main] is cut where the Drive service
    is at hand: [prologue] is everything up to there and hands the
    service to [k]; [resolveAndSync] is everything after.  Lemma
    [main_stages] below checks that the two pieces are [main]. *)

Definition prologue (srcDir targetDir credFile : string)
    (k : Service -> M unit) : M unit :=
  log_Println ["Arguments:"; srcDir; targetDir; credFile] ;;
  err ← os_MkdirAll targetDir ;
  match err with
  | Some err => log_Fatalf ("Unable to create target dir: " +:+ Error err)
  | None =>
  b ← ioutil_ReadFile credFile ;
  match b with
  | Err err => log_Fatalf ("Unable to read client secret file: " +:+ Error err)
  | Ok b =>
  match google_ConfigFromJSON env b DriveReadonlyScope with
  | Err err =>
      log_Fatalf ("Unable to parse client secret file to config: " +:+ Error err)
  | Ok config =>
  client ← getClient config ;
  match drive_New env client with
  | Some err => log_Fatalf ("Unable to retrieve Drive client: " +:+ Error err)
  | None => k {| serviceClient := client |}
  end end end end.

Definition resolveAndSync (srcDir targetDir : string) (srv : Service) : M unit :=
  folders ← Files_List_Do srv (folderQuery srcDir) ;
  match folders with
  | Err err => log_Fatalf ("Unable to retrieve folders: " +:+ Error err)
  | Ok folders =>
  match Files folders with
  | [] => log_Fatalf "No folders found."
  | folder :: _ =>
  log_Println ["Found folder"; Name folder; Id folder] ;;
  files ← Files_List_Do srv (childrenQuery (Id folder)) ;
  match files with
  | Err err => log_Fatalf ("Unable to retrieve files: " +:+ Error err)
  | Ok files =>
  match Files files with
  | [] => log_Fatalf "No files found."
  | _ => forEach (syncEntry srv targetDir) (Files files)
  end end end end.

End Program.

(** ** Observing a run *)

(** The requests sent to the remote service, the system calls on the
    local filesystem, the file ids of the download requests and the
    listing queries, each in order of occurrence. *)
Definition netCalls (evs : list Event) : list NetCall :=
  omap (fun e => match e with Net c => Some c | _ => None end) evs.

Definition fsCalls (evs : list Event) : list FsCall :=
  omap (fun e => match e with Fs c => Some c | _ => None end) evs.

Definition downloads (evs : list Event) : list string :=
  omap (fun e => match e with Net (NetDownload fileId) => Some fileId | _ => None end) evs.

Definition listCalls (evs : list Event) : list FilesListCall :=
  omap (fun e => match e with Net (NetFilesList c) => Some c | _ => None end) evs.

(** The calls that only the loop over the listing makes. *)
Definition ofSyncEngine (e : Event) : bool :=
  match e with
  | Fs (SysStat _) | Fs (SysCreate _) | Fs (SysChtimes _ _ _)
  | Net (NetDownload _) | Net NetReadBody | Net NetCloseBody => true
  | _ => false
  end.

(** The lines written by package log. *)
Definition logged (evs : list Event) : list string :=
  omap (fun e => match e with Stderr text => Some text | _ => None end) evs.

(** No listing query, no download and no call of the loop. *)
Definition quiet (evs : list Event) : Prop :=
  listCalls evs = [] /\ downloads evs = [] /\ filter ofSyncEngine evs = [].

(** What the first half of [main] does with the rest [k] of the program:
    it ends the process with status 1, or it hands the Drive service to
    [k]; either way its own events are [quiet]. *)
Definition handsOver (k : Service -> M unit) (r : Run unit) : Prop :=
  (outcome r = Exit 1 /\ quiet (events r))
  \/ exists srv w1 evs, quiet evs /\ r = after evs (k srv w1).

Definition listsNothing (r : Run unit) : Prop := listCalls (events r) = [].

(** The listing queries of the second half of [main], by the answer to
    the folder query. *)
Definition listedOnce (env : Env) (srcDir : string) (evs : list Event) : Prop :=
  match remote_FilesList env (folderQuery srcDir) with
  | Ok fl =>
      match Files fl with
      | folder :: _ =>
          listCalls evs = [folderQuery srcDir; childrenQuery (Id folder)]
      | [] => listCalls evs = [folderQuery srcDir]
      end
  | Err _ => listCalls evs = [folderQuery srcDir]
  end.

(** The run ended in [log.Fatalf] before the loop: status 1, no download
    and no call of the loop; and if it came as far as the folder query,
    the last line of its log is [line]. *)
Definition fatalBeforeSync (srcDir line : string) (r : Run unit) : Prop :=
  outcome r = Exit 1
  /\ downloads (events r) = []
  /\ filter ofSyncEngine (events r) = []
  /\ (folderQuery srcDir ∈ listCalls (events r) ->
      last (logged (events r)) = Some line).

(** The entry [f] failed in the world [w]: the last line of its log is
    [line], the filesystem is as before, and the loop goes on with the
    entries after it. *)
Definition failedAndContinued (env : Env) (srv : Service) (targetDir : string)
    (f : DriveFile) (rest : list DriveFile) (w : World) (line : string) : Prop :=
  let r := syncEntry env srv targetDir f w in
  outcome r = Return tt /\ world r = w
  /\ last (logged (events r)) = Some line
  /\ forEach (syncEntry env srv targetDir) (f :: rest) w =
     after (events r) (forEach (syncEntry env srv targetDir) rest w).

(** ** The specification of sanitization, in the words of the spec *)

Module SanitizeSpec.

(** The class [[A-Za-z0-9._-]]. *)
Definition allowed (c : ascii) : bool :=
  let n := nat_of_ascii c in
  ((65 <=? n) && (n <=? 90) || (97 <=? n) && (n <=? 122)
   || (48 <=? n) && (n <=? 57) || (n =? 46) || (n =? 95) || (n =? 45))%nat.

(** A run of invalid characters, and a place where such a run must end:
    the end of the input or an allowed character. *)
Fixpoint allInvalid (s : string) : bool :=
  match s with
  | EmptyString => true
  | String c s' => negb (allowed c) && allInvalid s'
  end.

Definition runEnds (s : string) : bool :=
  match s with
  | EmptyString => true
  | String c _ => allowed c
  end.

Fixpoint allAllowed (s : string) : bool :=
  match s with
  | EmptyString => true
  | String c s' => allowed c && allAllowed s'
  end.

(** [Sanitized src out]: [out] is [src] with every allowed character
    kept and every maximal run of invalid characters replaced by one
    underscore. *)
Inductive Sanitized : string -> string -> Prop :=
| Sanitized_end : Sanitized "" ""
| Sanitized_keep c src out :
    allowed c = true -> Sanitized src out ->
    Sanitized (String c src) (String c out)
| Sanitized_run run rest out :
    run <> "" -> allInvalid run = true -> runEnds rest = true ->
    Sanitized rest out ->
    Sanitized (run +:+ rest) (String "_" out).

End SanitizeSpec.

(** ** A concrete scenario *)

Module Scenario.

Definition folder : DriveFile :=
  {| Id := "F"; Name := "src"; CreatedTime := ""; ModifiedTime := "";
     WebContentLink := "" |}.

Definition entry : DriveFile :=
  {| Id := "1"; Name := "B (1).dat"; CreatedTime := "";
     ModifiedTime := "2023-05-01T12:00:00.000Z"; WebContentLink := "" |}.

(** An entry whose modification time is not a timestamp. *)
Definition undated : DriveFile :=
  {| Id := "2"; Name := "A.txt"; CreatedTime := "";
     ModifiedTime := "yesterday"; WebContentLink := "" |}.

Definition noon : Time := mkTime 1682942400000000000.

Definition listOf (l : list DriveFile) : result FileList :=
  Ok {| Files := l; NextPageToken := "" |}.

(** The outside world, given the answers to the folder query, to the
    listing query and to every download request. *)
Definition envWith (folders children : result FileList)
    (download : result Response) : Env :=
  {| time_Parse := fun layout value =>
       if String.eqb value "2023-05-01T12:00:00.000Z" then Ok noon
       else Err (errorString "parsing time: cannot parse");
     google_ConfigFromJSON := fun b scope =>
       Ok {| ClientID := b; ClientSecret := ""; Scopes := [scope] |};
     json_DecodeToken := fun data =>
       Ok {| AccessToken := data; RefreshToken := ""; Expiry := "" |};
     json_EncodeToken := AccessToken;
     config_AuthCodeURL := fun _ => "https://accounts.example/auth";
     fmt_Scan := Ok "4/code";
     config_Exchange := fun _ code =>
       Ok {| AccessToken := code; RefreshToken := ""; Expiry := "" |};
     drive_New := fun _ => None;
     remote_FilesList := fun c =>
       match pageSize c with
       | Some 1 => folders
       | _ => children
       end;
     remote_Download := fun _ => download |}.

Definition whole : Response := {| Body := "hello"; BodyBreaksAfter := None |}.

Definition env : Env := envWith (listOf [folder]) (listOf [entry; undated]) (Ok whole).
Definition envOffline : Env :=
  envWith (listOf [folder]) (listOf [entry; undated])
    (Err (errorString "connection reset")).
Definition envNoFolder : Env := envWith (listOf []) (listOf [entry]) (Ok whole).
Definition envNoFiles : Env := envWith (listOf [folder]) (listOf []) (Ok whole).

Definition srv : Service :=
  {| serviceClient :=
       {| clientConfig := {| ClientID := "{}"; ClientSecret := ""; Scopes := [] |};
          clientToken := {| AccessToken := "t"; RefreshToken := ""; Expiry := "" |} |} |}.

Definition epoch : Time := mkTime 0.

(** A fresh target directory, and the same directory with something in
    the place of the first entry. *)
Definition fresh : World :=
  {| fs := {[ "cred.json" := File "{}" epoch epoch ]} ∪ {[ "out" := Dir ]};
     clock := mkTime 5 |}.

Definition having (n : Node) : World :=
  {| fs := <["out/B_1_.dat" := n]> (fs fresh); clock := mkTime 5 |}.

Definition Args : list string := ["sync"; "src"; "out"; "cred.json"].

End Scenario.

(** ** [DownloadFile] *)

(** [http.Request], as far as [http.NewRequest] fills it. *)
Record Request : Type := { Method : string; URL : string }.

(** [http.RoundTripper]: the answer of the transport to a request, the
    pair [(resp, err)] that [RoundTrip] returns. *)
Definition RoundTripper : Type := Request -> option Response * option error.

(** [ioutil.ReadAll]: what could be read, and the read error, if any. *)
Definition ioutil_ReadAll (body : Response) : M (string * option error) :=
  emit (Net NetReadBody) ;;
  mret (received body,
        match BodyBreaksAfter body with
        | None => None
        | Some _ => Some (errorString "unexpected EOF")
        end).

Section DownloadFile.

Context (http_NewRequest : string -> string -> result Request).

(** DownloadFile downloads the content of a given file object.  [main]
    does not call it.  The [defer] statement evaluates [resp.Body] on the
    spot, before [err] is looked at; the deferred [Close] runs when the
    function returns. *)
Definition DownloadFile (d : Service) (t : RoundTripper) (f : DriveFile)
    : M (string * option error) :=
  let downloadURL := WebContentLink f in
  if String.eqb downloadURL "" then
    fmt_Printf "An error occurred: File is not downloadable" ;;
    mret ("", None)
  else
    match http_NewRequest "GET" downloadURL with
    | Err err =>
        fmt_Printf ("An error occurred: " +:+ Error err +:+ nl) ;;
        mret ("", Some err)
    | Ok req =>
        let '(resp, err) := t req in
        match resp with
        | None => panic nilDereference
        | Some resp =>
            r ← match err with
                | Some err =>
                    fmt_Printf ("An error occurred: " +:+ Error err +:+ nl) ;;
                    mret ("", Some err)
                | None =>
                    '(body, err) ← ioutil_ReadAll resp ;
                    match err with
                    | Some err =>
                        fmt_Printf ("An error occurred: " +:+ Error err +:+ nl) ;;
                        mret ("", Some err)
                    | None => mret (body, None)
                    end
                end ;
            body_Close resp ;;
            mret r
        end
    end.

End DownloadFile.

(** ** More ways to look at a world and at a run *)

Definition isCloseBody (e : Event) : bool :=
  match e with
  | Net NetCloseBody => true
  | _ => false
  end.

(** The body of the response is closed once, as the last thing. *)
Definition closedOnce (evs : list Event) : Prop :=
  length (filter isCloseBody evs) = 1%nat /\ last evs = Some (Net NetCloseBody).

(** A regular file is at [path]. *)
Definition isFile (w : World) (path : string) : Prop :=
  exists data atime mtime, fs w !! path = Some (File data atime mtime).

(** A path at which a file can be opened for writing: nothing is there,
    or a regular file. *)
Definition writable (w : World) (path : string) : Prop :=
  fs w !! path = None \/ isFile w path.

(** Everything but the node at [path] is in [w'] as it is in [w]. *)
Definition sameElsewhere (path : string) (w w' : World) : Prop :=
  clock w' = clock w /\ forall p, p <> path -> fs w' !! p = fs w !! p.

(** What one iteration of the loop comes to, by what is at the path. *)
Definition entryDone (env : Env) (f : DriveFile) (path : string)
    (w : World) (r : Run unit) : Prop :=
  match fs w !! path with
  | Some (File _ _ _) =>
      outcome r = Return tt /\ world r = w /\ downloads (events r) = []
  | Some Dir | Some (Unreachable ENOENT) =>
      outcome r = Return tt /\ world r = w /\ downloads (events r) = [Id f]
  | Some (Unreachable _) =>
      outcome r = Panic nilDereference /\ world r = w /\ downloads (events r) = []
  | None =>
      outcome r = Return tt /\ downloads (events r) = [Id f]
      /\ match remote_Download env (Id f) with
         | Err _ => world r = w
         | Ok resp =>
             exists atime mtime,
               world r
               = setFs (<[path := File (received resp) atime mtime]> (fs w)) w
         end
  end.

(** Whatever exists in [w] at a path other than the token file exists
    unchanged in [w']. *)
Definition keeps (w w' : World) : Prop :=
  forall p node, p <> "token.json" -> fs w !! p = Some node -> fs w' !! p = Some node.

(** [handsOver], with what the first half of [main] keeps of the world. *)
Definition handsOverKeeping (w : World) (k : Service -> M unit) (r : Run unit) : Prop :=
  (outcome r = Exit 1 /\ keeps w (world r))
  \/ exists srv w1 evs, keeps w w1 /\ r = after evs (k srv w1).

(** ** More of the scenario *)

Module Cases.

Import Scenario.

Definition token : Token :=
  {| AccessToken := "ya29"; RefreshToken := ""; Expiry := "" |}.

Definition config : Config :=
  {| ClientID := "{}"; ClientSecret := ""; Scopes := [DriveReadonlyScope] |}.

(** A codec that reads back what it writes: the access token on a line
    of its own. *)
Definition decodeLine (data : string) : result Token :=
  match data with
  | EmptyString => Err (errorString "EOF")
  | _ =>
      Ok {| AccessToken := String.substring 0 (String.length data - 1) data;
            RefreshToken := ""; Expiry := "" |}
  end.

(** The outside world of the authorization, given what the operator
    types and what the token endpoint answers. *)
Definition authEnv (scan : result string) (exchange : result Token) : Env :=
  {| time_Parse := time_Parse env;
     google_ConfigFromJSON := fun b scope =>
       if String.eqb b "{}" then Ok config
       else Err (errorString "unexpected end of JSON input");
     json_DecodeToken := decodeLine;
     json_EncodeToken := AccessToken;
     config_AuthCodeURL := fun _ => "https://accounts.example/auth";
     fmt_Scan := scan;
     config_Exchange := fun _ _ => exchange;
     drive_New := fun _ => None;
     remote_FilesList := remote_FilesList env;
     remote_Download := remote_Download env |}.

Definition granted : Env := authEnv (Ok "4/code") (Ok token).
Definition silent : Env := authEnv (Err (errorString "unexpected newline")) (Ok token).
Definition refused : Env :=
  authEnv (Ok "4/code") (Err (errorString "oauth2: cannot fetch token")).

(** The listing queries answered with an error. *)
Definition envListing (folders children : result FileList) : Env :=
  envWith folders children (Ok whole).

(** The fresh world with [n] in the place of [path]. *)
Definition fresh_with (path : string) (n : Node) : World :=
  {| fs := <[path := n]> (fs fresh); clock := mkTime 5 |}.

Definition linked : DriveFile :=
  {| Id := "4"; Name := "C.bin"; CreatedTime := ""; ModifiedTime := "";
     WebContentLink := "https://drive.example/uc?id=4" |}.

Definition newRequest (method url : string) : result Request :=
  if String.eqb url "https://drive.example/uc?id=4"
  then Ok {| Method := method; URL := url |}
  else Err (errorString "parse: missing protocol scheme").

Definition unlinked : DriveFile :=
  {| Id := "5"; Name := "D.bin"; CreatedTime := ""; ModifiedTime := "";
     WebContentLink := "drive.example" |}.

Definition offline : RoundTripper :=
  fun _ => (None, Some (errorString "dial tcp: connection refused")).
Definition online : RoundTripper := fun _ => (Some whole, None).

End Cases.

(** ** Timestamps out of the ordinary *)

Module Old.

Import Scenario.

(** January 1 of the year 1600, 00:00:00 UTC: 11676096000 seconds before
    1970. *)
Definition year1600 : Time := mkTime (-11676096000000000000).




(** [time.Parse] accepts both timestamps. *)
Definition parse (layout value : string) : result Time :=
  if String.eqb value "1600-01-01T00:00:00Z" then Ok year1600
  else if String.eqb value "0001-01-01T00:00:00Z" then Ok zeroTime
  else time_Parse env layout value.

(** The outside world of the scenario, with that parser and the given
    answer to every download request. *)
Definition envWith (download : result Response) : Env :=
  {| time_Parse := parse;
     google_ConfigFromJSON := google_ConfigFromJSON env;
     json_DecodeToken := json_DecodeToken env;
     json_EncodeToken := json_EncodeToken env;
     config_AuthCodeURL := config_AuthCodeURL env;
     fmt_Scan := fmt_Scan env;
     config_Exchange := config_Exchange env;
     drive_New := drive_New env;
     remote_FilesList := remote_FilesList env;
     remote_Download := fun _ => download |}.

End Old.

(** * Properties *)

(** ** Sanitization *)

Section Sanitization.

Import Regexp SanitizeSpec.

Lemma append_cons c (s t : string) : String c s +:+ t = String c (s +:+ t).
Proof. reflexivity. Qed.

Lemma append_nil (t : string) : "" +:+ t = t.
Proof. reflexivity. Qed.

Lemma drop_length n s : (String.length (drop n s) <= String.length s)%nat.
Proof.
  revert s; induction n as [|n IH]; intros [|c s]; simpl; try lia.
  specialize (IH s); lia.
Qed.

(** One step of the scan. *)
Lemma ReplaceAllString_cons r c s repl :
  ReplaceAllString r (String c s) repl =
  if classMatches r c
  then repl +:+ ReplaceAllString r (drop (matchLen r s) s) repl
  else String c (ReplaceAllString r s repl).
Proof.
  simp ReplaceAllString; simpl.
  destruct (classMatches r c); now simp ReplaceAllString.
Qed.

(** The bracket expression of [re] is the complement of the spec's
    class, on all 256 bytes. *)
Lemma re_class c : classMatches re c = negb (allowed c).
Proof. destruct c as [[] [] [] [] [] [] [] []]; reflexivity. Qed.

Lemma cleanFilename_cons c s :
  cleanFilename (String c s) =
  if allowed c then String c (cleanFilename s)
  else String "_" (cleanFilename (drop (matchLen re s) s)).
Proof.
  unfold cleanFilename; rewrite ReplaceAllString_cons, re_class.
  now destruct (allowed c).
Qed.

(** The greedy match splits the input into the matched run and a rest
    at which the run ends. *)
Lemma matchLen_split s :
  exists run, s = run +:+ drop (matchLen re s) s
              /\ allInvalid run = true
              /\ runEnds (drop (matchLen re s) s) = true.
Proof.
  induction s as [|c s (run & Hs & Hrun & Hend)]; simpl.
  - now exists "".
  - rewrite re_class. destruct (allowed c) eqn:Hc; simpl.
    + exists "". now rewrite Hc.
    + exists (String c run); simpl. rewrite Hc.
      rewrite append_cons, <- Hs. auto.
Qed.

Lemma matchLen_run run rest :
  allInvalid run = true -> runEnds rest = true ->
  drop (matchLen re (run +:+ rest)) (run +:+ rest) = rest.
Proof.
  intros Hrun Hend. induction run as [|c run IH]; simpl in *.
  - rewrite append_nil. destruct rest as [|d rest]; simpl in *; [done|].
    now rewrite re_class, Hend.
  - apply andb_prop in Hrun as [Hc Hrun].
    rewrite append_cons; simpl. rewrite re_class, Hc. auto.
Qed.

Lemma cleanFilename_Sanitized s : Sanitized s (cleanFilename s).
Proof.
  remember (String.length s) as n eqn:Hn.
  revert s Hn; induction n as [n IH] using lt_wf_ind; intros [|c s] Hn.
  - constructor.
  - rewrite cleanFilename_cons. destruct (allowed c) eqn:Hc.
    + constructor; [done|]. apply (IH (String.length s)); simpl in *; lia.
    + destruct (matchLen_split s) as (run & Hs & Hrun & Hend).
      rewrite Hs at 1. rewrite <- append_cons.
      apply (Sanitized_run (String c run)); simpl; try done.
      * now rewrite Hc.
      * pose proof (drop_length (matchLen re s) s).
        eapply IH; [|reflexivity]. simpl in *; lia.
Qed.

Lemma Sanitized_cleanFilename s out : Sanitized s out -> out = cleanFilename s.
Proof.
  induction 1 as [|c src out Hc _ IH|run rest out Hne Hrun Hend _ IH].
  - reflexivity.
  - now rewrite cleanFilename_cons, Hc, IH.
  - destruct run as [|c run]; [done|]; simpl in *.
    apply andb_prop in Hrun as [Hc Hrun].
    rewrite append_cons, cleanFilename_cons.
    destruct (allowed c); [done|].
    now rewrite matchLen_run, IH.
Qed.

Lemma cleanFilename_allowed s : allAllowed (cleanFilename s) = true.
Proof.
  remember (String.length s) as n eqn:Hn.
  revert s Hn; induction n as [n IH] using lt_wf_ind; intros [|c s] Hn.
  - reflexivity.
  - rewrite cleanFilename_cons. destruct (allowed c) eqn:Hc; simpl.
    + rewrite Hc; simpl. apply (IH (String.length s)); simpl in *; lia.
    + pose proof (drop_length (matchLen re s) s).
      eapply IH; [|reflexivity]. simpl in *; lia.
Qed.

Lemma cleanFilename_fixed s : allAllowed s = true -> cleanFilename s = s.
Proof.
  induction s as [|c s IH]; simpl; [done|].
  intros [Hc Hs]%andb_prop. now rewrite cleanFilename_cons, Hc, IH.
Qed.

Example cleanFilename_plain : cleanFilename "A.txt" = "A.txt".
Proof. reflexivity. Qed.

Example cleanFilename_brackets : cleanFilename "B (1).dat" = "B_1_.dat".
Proof. reflexivity. Qed.

Example cleanFilename_slashes : cleanFilename "../a//b" = ".._a_b".
Proof. reflexivity. Qed.

Example cleanFilename_empty : cleanFilename "" = "".
Proof. reflexivity. Qed.

(** C2.  For every input, [cleanFilename] keeps the characters of the
    class [[A-Za-z0-9._-]] and puts one underscore in the place of every
    maximal run of other characters: its output is related to the input
    by [Sanitized], and it is the only output that is (the function is
    total, and the result is determined by the input). *)
Theorem cleanFilename_sanitizes (in_ : string) :
  Sanitized in_ (cleanFilename in_)
  /\ forall out, Sanitized in_ out -> out = cleanFilename in_.
Proof.
  split; [apply cleanFilename_Sanitized | apply Sanitized_cleanFilename].
Qed.

Lemma cleanFilename_sanitizes_witness :
  Sanitized "B (1).dat" "B_1_.dat" /\ "B_1_.dat" = cleanFilename "B (1).dat".
Proof.
  assert (H : Sanitized "B (1).dat" "B_1_.dat")
    by exact (proj1 (cleanFilename_sanitizes "B (1).dat")).
  split; [exact H|].
  exact (proj2 (cleanFilename_sanitizes "B (1).dat") "B_1_.dat" H).
Defined.

(** C3.  Sanitizing twice is sanitizing once. *)
Theorem cleanFilename_idempotent (x : string) :
  cleanFilename (cleanFilename x) = cleanFilename x.
Proof. apply cleanFilename_fixed, cleanFilename_allowed. Qed.

End Sanitization.

(** ** Running the program *)

(** Unfold the program down to the filesystem lookups and the answers of
    the outside world, which stay as they are. *)
Ltac run :=
  cbv [main prologue resolveAndSync syncEntry fileExists getClient
       tokenFromFile saveToken getTokenFromWeb json_Decode
       Files_List_Do Files_Get_Download
       os_Stat os_MkdirAll ioutil_ReadFile os_Open os_OpenFile os_Create
       openTrunc io_Copy file_Write file_Close body_Close os_Chtimes
       os_IsNotExist log_Println log_Fatalf fmt_Println fmt_Printf
       emit getWorld putFs setFs panic exit after
       mbind M_bind mret M_ret outcome world events app fst snd negb IsDir];
  cbn [fs clock Files].

(** Run as far as possible, using [tac] wherever the run is stuck. *)
Ltac run_using tac := run; repeat (tac; run).

(** Follow every answer of the outside world at the place where the run
    is stuck. *)
Ltac branch :=
  idtac;
  match goal with
  | |- context [match ?x with _ => _ end] =>
      lazymatch x with
      | context [match _ with _ => _ end] => fail
      | _ => destruct x eqn:?
      end
  end.

Lemma main_stages env prog srcDir targetDir credFile :
  main env [prog; srcDir; targetDir; credFile] =
  prologue env srcDir targetDir credFile (resolveAndSync env srcDir targetDir).
Proof. reflexivity. Qed.

Lemma events_after {A} evs (r : Run A) : events (after evs r) = evs ++ events r.
Proof. now destruct r. Qed.

Lemma outcome_after {A} evs (r : Run A) : outcome (after evs r) = outcome r.
Proof. now destruct r. Qed.

Lemma world_after {A} evs (r : Run A) : world (after evs r) = world r.
Proof. now destruct r. Qed.

Lemma forEach_cons {A} (body : A -> M unit) x rest w :
  forEach body (x :: rest) w =
  match body x w with
  | mkRun (Return _) w' evs => after evs (forEach body rest w')
  | mkRun (Exit code) w' evs => mkRun (Exit code) w' evs
  | mkRun (Panic text) w' evs => mkRun (Panic text) w' evs
  end.
Proof. reflexivity. Qed.

(** An entry that returns hands the rest of the listing to the loop. *)
Lemma forEach_continues {A} (body : A -> M unit) x rest w :
  outcome (body x w) = Return tt ->
  forEach body (x :: rest) w =
  after (events (body x w)) (forEach body rest (world (body x w))).
Proof. rewrite forEach_cons. destruct (body x w) as [[[]| |] ? ?]; now simpl. Qed.

Lemma forEach_panics {A} (body : A -> M unit) x rest w text :
  outcome (body x w) = Panic text ->
  outcome (forEach body (x :: rest) w) = Panic text.
Proof. rewrite forEach_cons. destruct (body x w) as [[[]| |] ? ?]; now simpl. Qed.

(** ** One entry of the listing *)

Section Entry.

Context (env : Env) (srv : Service) (targetDir : string) (f : DriveFile).

(** A regular file at the path ends the iteration after the [Stat]. *)
Lemma syncEntry_skips (w : World) data atime mtime :
  fs w !! outName targetDir f = Some (File data atime mtime) ->
  let r := syncEntry env srv targetDir f w in
  outcome r = Return tt /\ world r = w /\ netCalls (events r) = []
  /\ fsCalls (events r) = [SysStat (outName targetDir f)].
Proof. intros H. run_using ltac:(rewrite H). done. Qed.


(** C1.  When a regular file exists at the sanitized local path, the
    entry is skipped: the iteration returns, the world is unchanged, no
    request goes to the remote service and the only system call is the
    [Stat].  When a directory is at the path, [fileExists] answers
    [false] and the first request of the iteration is the download of
    the entry. *)
Theorem existing_file_skipped_directory_downloaded (w : World) :
  let r := syncEntry env srv targetDir f w in
  (forall data atime mtime,
      fs w !! outName targetDir f = Some (File data atime mtime) ->
      outcome r = Return tt /\ world r = w /\ netCalls (events r) = []
      /\ fsCalls (events r) = [SysStat (outName targetDir f)])
  /\ (fs w !! outName targetDir f = Some Dir ->
      outcome (fileExists (outName targetDir f) w) = Return false
      /\ head (netCalls (events r)) = Some (NetDownload (Id f))).
Proof.
  intros r; subst r; split.
  - intros data atime mtime H. now apply (syncEntry_skips w data atime mtime).
  - intros H. run_using ltac:(rewrite H). split; [done|].
    destruct (remote_Download env (Id f)); run_using ltac:(rewrite H); done.
Qed.

(** C4.  When the download request of an entry fails, or the request
    succeeds and the local file cannot be created, the iteration logs
    the failure and returns with the filesystem untouched, and the loop
    carries on with the entries after it: neither failure ends the
    run. *)
Theorem failed_entry_does_not_stop_the_run (rest : list DriveFile) (w : World) :
  outcome (fileExists (outName targetDir f) w) = Return false ->
  (forall err, remote_Download env (Id f) = Err err ->
     failedAndContinued env srv targetDir f rest w
       (Sprintln [">> Failed to download"]))
  /\ (forall resp err,
       remote_Download env (Id f) = Ok resp ->
       outcome (os_Create (outName targetDir f) w) = Return (Err err) ->
       failedAndContinued env srv targetDir f rest w
         (Sprintln [">> Failed to create filename"; Error err;
                    outName targetDir f])).
Proof.
  intros Hex.
  assert (Hloop : forall line,
    (let r := syncEntry env srv targetDir f w in
     outcome r = Return tt /\ world r = w
     /\ last (logged (events r)) = Some line) ->
    failedAndContinued env srv targetDir f rest w line).
  { intros line (Ho & Hw & Hl). unfold failedAndContinued.
    rewrite forEach_continues, Hw; done. }
  split.
  - intros err Hdl. apply Hloop. revert Hex. run.
    destruct (fs w !! outName targetDir f) as [[| |[]]|]; run; try done;
      rewrite Hdl; run; done.
  - intros resp err Hdl Hcr. apply Hloop. revert Hex Hcr. run.
    destruct (fs w !! outName targetDir f) as [[| |[]]|] eqn:Hfs; run;
      try done; rewrite Hdl; run; rewrite Hfs; run; intros _ [= <-]; done.
Qed.



(** C9.  [fileExists] returns a boolean when [os.Stat] succeeds or
    fails with a not-exist error.  On any other error of [os.Stat] the
    [FileInfo] is nil and [fileExists] panics with a nil dereference,
    and so does the loop that called it for the entry. *)
Theorem fileExists_panics_on_other_stat_errors
    (filename : string) (w : World) (info : option FileInfo) (err : option error) :
  outcome (os_Stat filename w) = Return (info, err) ->
  ((err = None \/ os_IsNotExist err = true) ->
     exists present, outcome (fileExists filename w) = Return present)
  /\ (err <> None -> os_IsNotExist err = false ->
      info = None
      /\ outcome (fileExists filename w) = Panic nilDereference
      /\ forall rest,
          outName targetDir f = filename ->
          outcome (forEach (syncEntry env srv targetDir) (f :: rest) w)
          = Panic nilDereference).
Proof.
  run. destruct (fs w !! filename) as [[| |e]|] eqn:Hfs; intros [= <- <-].
  - split; [intros _; run; eauto | done].
  - split; [intros _; run; eauto | done].
  - split.
    + intros [?|He]; [done|]. destruct e; try done. run; eauto.
    + intros _ He. split; [done|].
      destruct e; try done; (split; [run; done|]);
        intros rest <-; apply forEach_panics; run; rewrite Hfs; run; done.
  - split; [intros _; run; eauto | done].
Qed.

End Entry.

(** ** A transfer that breaks *)



(** ** The whole run *)

(** The events of [l] that come before its tail [tl]. *)
Ltac events_before l tl :=
  lazymatch l with
  | tl => constr:(@nil Event)
  | ?e :: ?l' => let p := events_before l' tl in constr:(e :: p)
  end.

Lemma prologue_run env srcDir targetDir credFile k w :
  handsOver k (prologue env srcDir targetDir credFile k w).
Proof.
  run_using ltac:(idtac; lazymatch goal with
                  | |- context [match k ?srv ?w1 with _ => _ end] => fail
                  | _ => branch
                  end).
  all: lazymatch goal with
       | |- context [match ?k' ?srv ?w1 with _ => _ end] =>
           right; exists srv, w1;
           destruct (k' srv w1) as [o w2 evs'];
           lazymatch goal with
           | |- context [mkRun o w2 ?l] =>
               let p := events_before l evs' in exists p
           end;
           split; [done | reflexivity]
       | _ => left; done
       end.
Qed.

Lemma listCalls_cons e evs :
  listCalls (e :: evs) =
  match e with
  | Net (NetFilesList c) => c :: listCalls evs
  | _ => listCalls evs
  end.
Proof. destruct e as [| | | |[]]; reflexivity. Qed.

Lemma syncEntry_listsNothing env srv targetDir f w :
  listsNothing (syncEntry env srv targetDir f w).
Proof. run_using branch; done. Qed.

Lemma forEach_listsNothing env srv targetDir l w :
  listsNothing (forEach (syncEntry env srv targetDir) l w).
Proof.
  revert w; induction l as [|f l IH]; intros w; [done|].
  rewrite forEach_cons.
  pose proof (syncEntry_listsNothing env srv targetDir f w) as Hf.
  destruct (syncEntry env srv targetDir f w) as [[[]| |] w' evs]; try done.
  unfold listsNothing in *. rewrite events_after. unfold listCalls in *.
  rewrite omap_app. simpl in Hf. rewrite Hf. apply IH.
Qed.

Lemma resolveAndSync_listCalls env srcDir targetDir srv w :
  listedOnce env srcDir (events (resolveAndSync env srcDir targetDir srv w)).
Proof.
  unfold listedOnce, resolveAndSync.
  set (body := syncEntry env srv targetDir). run.
  destruct (remote_FilesList env (folderQuery srcDir)) as [[[|folder others] ?]|];
    run; try done.
  destruct (remote_FilesList env (childrenQuery (Id folder))) as [[[|f l] ?]|];
    run; try done.
  pose proof (forEach_listsNothing env srv targetDir (f :: l) w) as H.
  fold body in H. destruct (forEach body (f :: l) w) as [o w' evs].
  unfold listsNothing in H; simpl in H.
  rewrite !listCalls_cons; cbv beta iota. now rewrite H.
Qed.

Lemma resolveAndSync_no_folder env srcDir targetDir srv w fl :
  remote_FilesList env (folderQuery srcDir) = Ok fl -> Files fl = [] ->
  resolveAndSync env srcDir targetDir srv w =
  mkRun (Exit 1) w
    [Net (NetFilesList (folderQuery srcDir)); Stderr ("No folders found." +:+ nl)].
Proof. intros Hfl Hnil. run_using ltac:(first [rewrite Hfl | rewrite Hnil]). done. Qed.

Lemma resolveAndSync_no_files env srcDir targetDir srv w fl folder others cl :
  remote_FilesList env (folderQuery srcDir) = Ok fl ->
  Files fl = folder :: others ->
  remote_FilesList env (childrenQuery (Id folder)) = Ok cl -> Files cl = [] ->
  resolveAndSync env srcDir targetDir srv w =
  mkRun (Exit 1) w
    [Net (NetFilesList (folderQuery srcDir));
     Stderr (Sprintln ["Found folder"; Name folder; Id folder]);
     Net (NetFilesList (childrenQuery (Id folder)));
     Stderr ("No files found." +:+ nl)].
Proof.
  intros Hfl Hfolder Hcl Hnil. unfold resolveAndSync.
  set (body := syncEntry env srv targetDir).
  run_using ltac:(first [rewrite Hfl | rewrite Hfolder | rewrite Hcl | rewrite Hnil]).
  done.
Qed.

(** A run of [main] that ends in its second half with status 1 and with
    events that are not of the loop. *)
Lemma fatal_in_second_half env prog srcDir targetDir credFile w evs2 line :
  (forall srv w1, resolveAndSync env srcDir targetDir srv w1 =
                  mkRun (Exit 1) w1 (evs2 ++ [Stderr line])) ->
  downloads evs2 = [] -> filter ofSyncEngine evs2 = [] ->
  fatalBeforeSync srcDir line (main env [prog; srcDir; targetDir; credFile] w).
Proof.
  intros Hsecond Hd Hf. rewrite main_stages. unfold fatalBeforeSync.
  destruct (prologue_run env srcDir targetDir credFile
              (resolveAndSync env srcDir targetDir) w)
    as [(Ho & Hl & Hd1 & Hf1)|(srv & w1 & evs & (Hl & Hd1 & Hf1) & ->)].
  - repeat split; try done. rewrite Hl. by intros ?%elem_of_nil.
  - rewrite Hsecond; simpl. unfold downloads, logged in *.
    rewrite !omap_app, !filter_app, Hd1, Hd, Hf1, Hf.
    repeat split; try done. intros _. rewrite !app_assoc. apply last_snoc.
Qed.

(** C8.  With any number of positional arguments other than three,
    [main] prints the usage line on the standard output and returns, so
    the process ends with status 0; it makes no system call on the
    filesystem and sends nothing to the network, and the world is as it
    was. *)
Theorem wrong_argument_count_prints_usage
    (env : Env) (prog : string) (positional : list string) (w : World) :
  length positional <> 3%nat ->
  let r := main env (prog :: positional) w in
  events r =
    [Stdout (Sprintln ["Usage:"; prog; "SRC_DIR"; "TARGET_DIR"; "CRED_FILE"])]
  /\ outcome r = Return tt
  /\ exitStatus (outcome r) = 0
  /\ world r = w
  /\ fsCalls (events r) = [] /\ netCalls (events r) = [].
Proof.
  destruct positional as [|a [|b [|c [|d l]]]]; done.
Qed.

(** C6.  When the folder query is answered with no folder, the run ends
    with status 1 on "No folders found.": no listing query for the
    children of a folder is sent, nothing is downloaded and the loop
    makes no call.  When the folder is found and the listing query is
    answered with no file, the run ends with status 1 on "No files
    found.", again without a download and without a call of the loop. *)
Theorem empty_results_are_fatal
    (env : Env) (prog srcDir targetDir credFile : string) (w : World) :
  let r := main env [prog; srcDir; targetDir; credFile] w in
  (forall fl,
      remote_FilesList env (folderQuery srcDir) = Ok fl -> Files fl = [] ->
      fatalBeforeSync srcDir ("No folders found." +:+ nl) r
      /\ forall folderId, childrenQuery folderId ∉ listCalls (events r))
  /\ (forall fl folder others cl,
        remote_FilesList env (folderQuery srcDir) = Ok fl ->
        Files fl = folder :: others ->
        remote_FilesList env (childrenQuery (Id folder)) = Ok cl ->
        Files cl = [] ->
        fatalBeforeSync srcDir ("No files found." +:+ nl) r).
Proof.
  intros r; subst r; split.
  - intros fl Hfl Hnil; split.
    + apply (fatal_in_second_half _ _ _ _ _ _
               [Net (NetFilesList (folderQuery srcDir))]); [|done..].
      intros srv w1. now apply (resolveAndSync_no_folder _ _ _ _ _ fl).
    + intros folderId. rewrite main_stages.
      destruct (prologue_run env srcDir targetDir credFile
                  (resolveAndSync env srcDir targetDir) w)
        as [(_ & Hl & _)|(srv & w1 & evs & (Hl & _) & ->)].
      * rewrite Hl. apply not_elem_of_nil.
      * rewrite (resolveAndSync_no_folder _ _ _ _ _ fl Hfl Hnil); simpl.
        unfold listCalls in *. rewrite omap_app, Hl; simpl.
        intros H%list_elem_of_singleton.
        apply (f_equal pageSize) in H. discriminate H.
  - intros fl folder others cl Hfl Hfolder Hcl Hnil.
    apply (fatal_in_second_half _ _ _ _ _ _
             [Net (NetFilesList (folderQuery srcDir));
              Stderr (Sprintln ["Found folder"; Name folder; Id folder]);
              Net (NetFilesList (childrenQuery (Id folder)))]); [|done..].
    intros srv w1.
    now apply (resolveAndSync_no_files _ _ _ _ _ fl folder others cl).
Qed.

(** C7.  A run of [main] sends at most two listing queries: the folder
    query and, once the folder is resolved, exactly one query for its
    children.  That query asks for the files that have the folder among
    their parents, ordered by "createdTime desc", with a page size of 25
    and no page token; no query follows it. *)
Theorem listing_is_one_query
    (env : Env) (prog srcDir targetDir credFile : string) (w : World) :
  let r := main env [prog; srcDir; targetDir; credFile] w in
  (listCalls (events r) = []
   \/ listCalls (events r) = [folderQuery srcDir]
   \/ exists folder,
        listCalls (events r) = [folderQuery srcDir; childrenQuery (Id folder)])
  /\ (forall fl folder others,
        remote_FilesList env (folderQuery srcDir) = Ok fl ->
        Files fl = folder :: others ->
        folderQuery srcDir ∈ listCalls (events r) ->
        listCalls (events r) = [folderQuery srcDir; childrenQuery (Id folder)])
  /\ forall folderId,
       childrenQuery folderId =
       {| q := Some ("'" +:+ folderId +:+ "' in parents");
          pageSize := Some 25;
          orderBy := Some "createdTime desc";
          fields := Some "files(id, name, modifiedTime)";
          pageToken := None |}.
Proof.
  intros r; subst r. rewrite main_stages.
  split; [|split; [|done]].
  - destruct (prologue_run env srcDir targetDir credFile
                (resolveAndSync env srcDir targetDir) w)
      as [[_ (Hq & _)]|(srv & w1 & evs & (Hq & _) & ->)]; [by left|].
    rewrite events_after. unfold listCalls in *. rewrite omap_app, Hq. simpl.
    pose proof (resolveAndSync_listCalls env srcDir targetDir srv w1) as H.
    unfold listedOnce, listCalls in H.
    destruct (remote_FilesList env (folderQuery srcDir)) as [[[|folder ?] ?]|];
      simpl in H; eauto.
  - intros fl folder others Hfl Hfolder.
    destruct (prologue_run env srcDir targetDir credFile
                (resolveAndSync env srcDir targetDir) w)
      as [[_ (Hq & _)]|(srv & w1 & evs & (Hq & _) & ->)].
    + rewrite Hq. by intros ?%elem_of_nil.
    + intros _. rewrite events_after. unfold listCalls in *.
      rewrite omap_app, Hq. simpl.
      pose proof (resolveAndSync_listCalls env srcDir targetDir srv w1) as H.
      unfold listedOnce, listCalls in H. now rewrite Hfl, Hfolder in H.
Qed.

(** ** The theorems at work on the scenario *)

Section Witnesses.

Import Scenario.

Lemma existing_file_skipped_directory_downloaded_witness :
  let old := File "old" epoch epoch in
  let skipped := syncEntry env srv "out" entry (having old) in
  let retried := syncEntry env srv "out" entry (having Dir) in
  (fs (having old) !! outName "out" entry = Some old
   /\ outcome skipped = Return tt /\ world skipped = having old
   /\ netCalls (events skipped) = []
   /\ fsCalls (events skipped) = [SysStat (outName "out" entry)])
  /\ (fs (having Dir) !! outName "out" entry = Some Dir
      /\ outcome (fileExists (outName "out" entry) (having Dir)) = Return false
      /\ head (netCalls (events retried)) = Some (NetDownload (Id entry))).
Proof.
  intros old skipped retried.
  assert (Hold : fs (having old) !! outName "out" entry = Some old)
    by (vm_compute; reflexivity).
  assert (Hdir : fs (having Dir) !! outName "out" entry = Some Dir)
    by (vm_compute; reflexivity).
  split.
  - split; [exact Hold|].
    exact (proj1 (existing_file_skipped_directory_downloaded
                    env srv "out" entry (having old)) _ _ _ Hold).
  - split; [exact Hdir|].
    exact (proj2 (existing_file_skipped_directory_downloaded
                    env srv "out" entry (having Dir)) Hdir).
Defined.

Lemma failed_entry_does_not_stop_the_run_witness :
  failedAndContinued envOffline srv "out" entry [undated] fresh
    (Sprintln [">> Failed to download"])
  /\ failedAndContinued env srv "out" entry [undated] (having Dir)
       (Sprintln [">> Failed to create filename";
                  Error (PathError "open" "out/B_1_.dat" EISDIR);
                  outName "out" entry]).
Proof.
  split.
  - apply (proj1 (failed_entry_does_not_stop_the_run
                    envOffline srv "out" entry [undated] fresh
                    ltac:(vm_compute; reflexivity))
             (errorString "connection reset")).
    reflexivity.
  - apply (proj2 (failed_entry_does_not_stop_the_run
                    env srv "out" entry [undated] (having Dir)
                    ltac:(vm_compute; reflexivity))
             whole (PathError "open" "out/B_1_.dat" EISDIR)).
    + reflexivity.
    + vm_compute; reflexivity.
Defined.



Lemma fileExists_panics_on_other_stat_errors_witness :
  let locked := having (Unreachable EACCES) in
  let path := outName "out" entry in
  (exists present, outcome (fileExists path fresh) = Return present)
  /\ outcome (fileExists path locked) = Panic nilDereference
  /\ outcome (forEach (syncEntry env srv "out") [entry; undated] locked)
     = Panic nilDereference.
Proof.
  intros locked path. split.
  - apply (proj1 (fileExists_panics_on_other_stat_errors
                    env srv "out" entry path fresh
                    None (Some (PathError "stat" path ENOENT))
                    ltac:(vm_compute; reflexivity))).
    right; reflexivity.
  - destruct (proj2 (fileExists_panics_on_other_stat_errors
                       env srv "out" entry path locked
                       None (Some (PathError "stat" path EACCES))
                       ltac:(vm_compute; reflexivity))
                ltac:(discriminate) eq_refl) as (_ & Hpanic & Hloop).
    split; [exact Hpanic | exact (Hloop [undated] eq_refl)].
Defined.



Lemma wrong_argument_count_prints_usage_witness :
  let r := main env ["sync"; "src"] fresh in
  events r =
    [Stdout (Sprintln ["Usage:"; "sync"; "SRC_DIR"; "TARGET_DIR"; "CRED_FILE"])]
  /\ outcome r = Return tt
  /\ exitStatus (outcome r) = 0
  /\ world r = fresh
  /\ fsCalls (events r) = [] /\ netCalls (events r) = [].
Proof.
  apply (wrong_argument_count_prints_usage env "sync" ["src"] fresh).
  simpl; lia.
Defined.

Lemma empty_results_are_fatal_witness :
  (fatalBeforeSync "src" ("No folders found." +:+ nl) (main envNoFolder Args fresh)
   /\ forall folderId,
        childrenQuery folderId ∉ listCalls (events (main envNoFolder Args fresh)))
  /\ fatalBeforeSync "src" ("No files found." +:+ nl) (main envNoFiles Args fresh).
Proof.
  split.
  - apply (proj1 (empty_results_are_fatal envNoFolder "sync" "src" "out"
                    "cred.json" fresh)
             {| Files := []; NextPageToken := "" |}); reflexivity.
  - apply (proj2 (empty_results_are_fatal envNoFiles "sync" "src" "out"
                    "cred.json" fresh)
             {| Files := [folder]; NextPageToken := "" |} folder []
             {| Files := []; NextPageToken := "" |}); reflexivity.
Defined.

Lemma listing_is_one_query_witness :
  listCalls (events (main env Args fresh)) =
  [folderQuery "src"; childrenQuery (Id folder)].
Proof.
  apply (proj1 (proj2 (listing_is_one_query env "sync" "src" "out"
                         "cred.json" fresh))
           {| Files := [folder]; NextPageToken := "" |} folder []).
  - reflexivity.
  - reflexivity.
  - vm_compute. constructor.
Defined.

(** The scenario from end to end: the first run downloads both entries,
    a second run in the world it leaves downloads nothing. *)
Example second_run_downloads_nothing :
  let first := main env Args fresh in
  outcome first = Return tt
  /\ downloads (events first) = ["1"; "2"]
  /\ fs (world first) !! "out/B_1_.dat" = Some (File "hello" noon noon)
  /\ downloads (events (main env Args (world first))) = [].
Proof. vm_compute. done. Qed.

End Witnesses.

(** * Further properties *)

(** ** More on sanitization *)

Section MoreSanitization.

Import Regexp SanitizeSpec.

Lemma allAllowed_In s c :
  allAllowed s = true -> In c (String.list_ascii_of_string s) -> allowed c = true.
Proof.
  induction s as [|d s IH]; simpl; [done|].
  intros [Hd Hs]%andb_prop [<-|Hin]; auto.
Qed.

(** X1.  Every character of a sanitized name is of the class
    [[A-Za-z0-9._-]]; in particular a sanitized name holds no path
    separator, no NUL and no blank. *)
Theorem cleanFilename_only_class_characters (in_ : string) (c : ascii) :
  In c (String.list_ascii_of_string (cleanFilename in_)) ->
  allowed c = true /\ c <> "/"%char /\ c <> "000"%char /\ c <> " "%char.
Proof.
  intros Hin.
  assert (Hc : allowed c = true)
    by (eapply allAllowed_In; [apply cleanFilename_allowed | done]).
  split; [done|]. repeat split; intros ->; discriminate Hc.
Qed.

Lemma cleanFilename_only_class_characters_witness :
  allowed "_" = true /\ "_"%char <> "/"%char /\ "_"%char <> "000"%char
  /\ "_"%char <> " "%char.
Proof.
  apply (cleanFilename_only_class_characters "a / b" "_").
  vm_compute. right; left; reflexivity.
Defined.

(** X2.  The names that sanitization leaves as they are are exactly the
    names made of characters of the class. *)
Theorem cleanFilename_fixed_points (in_ : string) :
  cleanFilename in_ = in_ <-> allAllowed in_ = true.
Proof.
  split; [|apply cleanFilename_fixed].
  intros <-. apply cleanFilename_allowed.
Qed.

Lemma cleanFilename_fixed_points_witness :
  cleanFilename "A-1_final.txt" = "A-1_final.txt"
  /\ allAllowed "A-1_final.txt" = true.
Proof.
  split.
  - apply (proj2 (cleanFilename_fixed_points "A-1_final.txt")). reflexivity.
  - apply (proj1 (cleanFilename_fixed_points "A-1_final.txt")). reflexivity.
Defined.

Lemma cleanFilename_length_le s :
  (String.length (cleanFilename s) <= String.length s)%nat.
Proof.
  remember (String.length s) as n eqn:Hn.
  revert s Hn; induction n as [n IH] using lt_wf_ind; intros [|c s] Hn.
  - vm_compute. lia.
  - rewrite cleanFilename_cons. subst n.
    destruct (allowed c); simpl.
    + specialize (IH (String.length s) ltac:(simpl; lia) s eq_refl). lia.
    + pose proof (drop_length (matchLen re s) s) as Hd.
      assert (Hlt : (String.length (drop (matchLen re s) s)
                     < String.length (String c s))%nat)
        by (change (String.length (String c s)) with (S (String.length s)); lia).
      specialize (IH _ Hlt (drop (matchLen re s) s) eq_refl). lia.
Qed.

(** X3.  A sanitized name is never longer than the name it comes from,
    and it is empty only if that name is empty. *)
Theorem cleanFilename_never_longer_never_empty (in_ : string) :
  (String.length (cleanFilename in_) <= String.length in_)%nat
  /\ (in_ <> "" -> cleanFilename in_ <> "").
Proof.
  split; [apply cleanFilename_length_le|].
  destruct in_ as [|c s]; [done|]. intros _.
  rewrite cleanFilename_cons. now destruct (allowed c).
Qed.

Lemma cleanFilename_never_longer_never_empty_witness : cleanFilename "  " <> "".
Proof.
  apply (proj2 (cleanFilename_never_longer_never_empty "  ")). discriminate.
Defined.

Lemma matchLen_append a b :
  runEnds b = true ->
  drop (matchLen re (a +:+ b)) (a +:+ b) = drop (matchLen re a) a +:+ b.
Proof.
  intros Hb. induction a as [|c a IH].
  - rewrite append_nil. destruct b as [|d b]; simpl in *; [done|].
    now rewrite re_class, Hb.
  - rewrite append_cons. simpl. destruct (classMatches re c); done.
Qed.

(** X4.  Sanitization goes through a concatenation whose second part is
    empty or starts with a character of the class: a suffix made of such
    characters, like a file extension, is kept as it is. *)
Theorem cleanFilename_append (a b : string) :
  runEnds b = true ->
  cleanFilename (a +:+ b) = cleanFilename a +:+ cleanFilename b.
Proof.
  intros Hb.
  remember (String.length a) as n eqn:Hn.
  revert a Hn; induction n as [n IH] using lt_wf_ind; intros [|c a] Hn.
  - now rewrite append_nil.
  - rewrite append_cons, !cleanFilename_cons. subst n.
    destruct (allowed c).
    + rewrite append_cons. f_equal. eapply IH; [|reflexivity]. simpl; lia.
    + rewrite append_cons. f_equal. rewrite matchLen_append by done.
      pose proof (drop_length (matchLen re a) a).
      eapply IH; [|reflexivity]. simpl; lia.
Qed.

Lemma cleanFilename_append_witness :
  cleanFilename ("my report (2)" +:+ ".txt")
  = cleanFilename "my report (2)" +:+ cleanFilename ".txt".
Proof. apply (cleanFilename_append "my report (2)" ".txt"). reflexivity. Defined.

End MoreSanitization.

(** ** [DownloadFile] *)

Ltac run_download := cbv [DownloadFile ioutil_ReadAll]; run.

(** [x] is none of the elements of a list that is written out. *)
Ltac not_in_list H :=
  repeat (apply elem_of_cons in H as [H|H]; [discriminate H|]);
  by apply elem_of_nil in H.

Section DownloadFileProperties.

Context (http_NewRequest : string -> string -> result Request)
        (d : Service) (f : DriveFile) (w : World).

(** X21.  For a file without a download link [DownloadFile] prints a
    message and returns empty content with a nil error; for a link that
    [http.NewRequest] rejects it returns that error.  In both cases the
    transport is not asked and the world is unchanged. *)
Theorem DownloadFile_without_request (t : RoundTripper) :
  (WebContentLink f = "" ->
   DownloadFile http_NewRequest d t f w =
   mkRun (Return ("", None)) w
     [Stdout "An error occurred: File is not downloadable"])
  /\ (forall err,
        WebContentLink f <> "" ->
        http_NewRequest "GET" (WebContentLink f) = Err err ->
        DownloadFile http_NewRequest d t f w =
        mkRun (Return ("", Some err)) w
          [Stdout ("An error occurred: " +:+ Error err +:+ nl)]).
Proof.
  split.
  - intros H. run_download. rewrite H. done.
  - intros err Hlink%String.eqb_neq Hreq. run_download. rewrite Hlink, Hreq. done.
Qed.

(** X22.  When the transport returns no response, [DownloadFile] panics
    with a nil dereference at its [defer] statement: the error of the
    transport is neither printed nor returned. *)
Theorem DownloadFile_nil_response_panics (t : RoundTripper) req err :
  WebContentLink f <> "" ->
  http_NewRequest "GET" (WebContentLink f) = Ok req ->
  t req = (None, err) ->
  DownloadFile http_NewRequest d t f w = mkRun (Panic nilDereference) w [].
Proof.
  intros Hlink%String.eqb_neq Hreq Ht. run_download. rewrite Hlink, Hreq, Ht. done.
Qed.

(** X23.  When the transport returns a response, [DownloadFile] closes
    its body exactly once, as its last action, on every path: it returns
    the whole body when the transport reports no error and the body can
    be read to its end, and empty content with the error otherwise; the
    body is not read when the transport reports an error. *)
Theorem DownloadFile_closes_the_body (t : RoundTripper) req resp err :
  WebContentLink f <> "" ->
  http_NewRequest "GET" (WebContentLink f) = Ok req ->
  t req = (Some resp, err) ->
  let r := DownloadFile http_NewRequest d t f w in
  closedOnce (events r) /\ world r = w
  /\ outcome r =
     Return match err, BodyBreaksAfter resp with
            | Some e, _ => ("", Some e)
            | None, Some _ => ("", Some (errorString "unexpected EOF"))
            | None, None => (Body resp, None)
            end
  /\ (err <> None -> Net NetReadBody ∉ events r).
Proof.
  intros Hlink%String.eqb_neq Hreq Ht r. subst r. run_download.
  rewrite Hlink, Hreq, Ht. unfold closedOnce, received.
  destruct err as [e|]; [|destruct (BodyBreaksAfter resp)]; run;
    (split; [done|]); (split; [done|]); (split; [done|]); [|done..].
  intros _ Hin. not_in_list Hin.
Qed.

End DownloadFileProperties.

Section DownloadFileWitnesses.

Import Scenario Cases.

Lemma DownloadFile_without_request_witness :
  DownloadFile newRequest srv offline entry fresh =
  mkRun (Return ("", None)) fresh
    [Stdout "An error occurred: File is not downloadable"]
  /\ DownloadFile newRequest srv offline unlinked fresh =
     mkRun (Return ("", Some (errorString "parse: missing protocol scheme"))) fresh
       [Stdout ("An error occurred: "
                +:+ Error (errorString "parse: missing protocol scheme") +:+ nl)].
Proof.
  split.
  - apply (proj1 (DownloadFile_without_request newRequest srv entry fresh offline)).
    reflexivity.
  - apply (proj2 (DownloadFile_without_request newRequest srv unlinked fresh offline)).
    + discriminate.
    + reflexivity.
Defined.

Lemma DownloadFile_nil_response_panics_witness :
  DownloadFile newRequest srv offline linked fresh
  = mkRun (Panic nilDereference) fresh [].
Proof.
  apply (DownloadFile_nil_response_panics newRequest srv linked fresh offline
           {| Method := "GET"; URL := "https://drive.example/uc?id=4" |}
           (Some (errorString "dial tcp: connection refused"))).
  - discriminate.
  - reflexivity.
  - reflexivity.
Defined.

Lemma DownloadFile_closes_the_body_witness :
  let r := DownloadFile newRequest srv online linked fresh in
  closedOnce (events r) /\ world r = fresh
  /\ outcome r = Return ("hello", None)
  /\ (@None error <> None -> Net NetReadBody ∉ events r).
Proof.
  apply (DownloadFile_closes_the_body newRequest srv linked fresh online
           {| Method := "GET"; URL := "https://drive.example/uc?id=4" |}
           whole None).
  - discriminate.
  - reflexivity.
  - reflexivity.
Defined.

End DownloadFileWitnesses.

(** ** The authorization *)

Section Authorization.

Context (env : Env).

(** The two ways of [getClient]. *)
Lemma getClient_from_file (config : Config) (w : World) data atime mtime tok :
  fs w !! "token.json" = Some (File data atime mtime) ->
  json_DecodeToken env data = Ok tok ->
  getClient env config w =
  mkRun (Return {| clientConfig := config; clientToken := tok |}) w
    [Fs (SysOpen "token.json"); Fs (SysClose "token.json")].
Proof.
  intros Hfs Hdec.
  run_using ltac:(first [progress unfold Handle | rewrite Hfs | rewrite Hdec]).
  done.
Qed.

Lemma tokenFromFile_fails (w : World) err :
  outcome (tokenFromFile env "token.json" w) = Return (Err err) ->
  match fs w !! "token.json" with
  | Some (File data _ _) => json_DecodeToken env data = Err err
  | _ => True
  end.
Proof.
  destruct (fs w !! "token.json") as [[data ? ?| |]|] eqn:Hfs; try done.
  run_using ltac:(first [progress unfold Handle | rewrite Hfs]).
  destruct (json_DecodeToken env data); run; congruence.
Qed.

Lemma getClient_from_web (config : Config) (w : World) err code tok :
  outcome (tokenFromFile env "token.json" w) = Return (Err err) ->
  fmt_Scan env = Ok code ->
  config_Exchange env config code = Ok tok ->
  writable w "token.json" ->
  let r := getClient env config w in
  outcome r = Return {| clientConfig := config; clientToken := tok |}
  /\ netCalls (events r) = [NetExchange code]
  /\ (Stdin ∈ events r)
  /\ sameElsewhere "token.json" w (world r)
  /\ exists atime,
       fs (world r) !! "token.json"
       = Some (File (json_EncodeToken env tok +:+ nl) atime (clock w)).
Proof.
  intros Hload Hscan Hex Hw r; subst r.
  apply tokenFromFile_fails in Hload.
  destruct Hw as [Hfs|(data & atime & mtime & Hfs)]; rewrite Hfs in Hload;
    run_using ltac:(first [progress unfold Handle | rewrite lookup_insert_eq
                          | rewrite Hfs | rewrite Hload | rewrite Hscan
                          | rewrite Hex | rewrite append_nil]);
    unfold sameElsewhere; cbn [fs clock];
    (split; [done|]); (split; [done|]); (split; [repeat constructor|]);
    (split; [split; [done|]; intros p Hp; rewrite !lookup_insert_ne by done; done|]);
    eauto.
Qed.

(** X11.  A token that [saveToken] has written is the token that
    [tokenFromFile] reads back, as long as the codec reads back what it
    writes: [saveToken] replaces whatever the file held by the encoded
    token and changes no other path. *)
Theorem saved_token_is_loaded (path : string) (tok : Token) (w : World) :
  json_DecodeToken env (json_EncodeToken env tok +:+ nl) = Ok tok ->
  writable w path ->
  let saved := saveToken env path tok w in
  outcome saved = Return tt
  /\ sameElsewhere path w (world saved)
  /\ (exists atime,
        fs (world saved) !! path
        = Some (File (json_EncodeToken env tok +:+ nl) atime (clock w)))
  /\ outcome (tokenFromFile env path (world saved)) = Return (Ok tok).
Proof.
  intros Hcodec [Hfs|(data & atime & mtime & Hfs)];
    run_using ltac:(first [progress unfold Handle | rewrite lookup_insert_eq
                          | rewrite Hfs | rewrite append_nil | rewrite Hcodec]);
    unfold sameElsewhere; cbn [fs clock];
    (split; [done|]); (split; [split; [done|]; intros p Hp;
       rewrite !lookup_insert_ne by done; done|]); split; eauto.
Qed.

(** X12.  Where the token file cannot be opened for writing (a
    directory, or a path that cannot be resolved), [saveToken] ends the
    process with status 1; nothing is written and the world is
    unchanged. *)
Theorem saveToken_fatal_when_not_writable (path : string) (tok : Token) (w : World) :
  ~ writable w path ->
  let r := saveToken env path tok w in
  outcome r = Exit 1 /\ world r = w
  /\ forall data, Fs (SysWrite path data) ∉ events r.
Proof.
  intros Hw.
  assert (Hfs : fs w !! path = Some Dir
                \/ exists e, fs w !! path = Some (Unreachable e)).
  { destruct (fs w !! path) as [[| |e]|] eqn:H; eauto.
    - destruct Hw; right; unfold isFile; eauto.
    - destruct Hw; by left. }
  clear Hw.
  destruct Hfs as [Hfs|[e Hfs]]; run_using ltac:(rewrite Hfs);
    (split; [done|]); (split; [done|]); intros data Hin; not_in_list Hin.
Qed.

(** X13.  With a token file that decodes, [getClient] opens and closes
    that file and does nothing else: the operator is not asked, nothing
    goes to the network, the world is unchanged, and the client carries
    the decoded token. *)
Theorem getClient_reuses_saved_token
    (config : Config) (w : World) data atime mtime tok :
  fs w !! "token.json" = Some (File data atime mtime) ->
  json_DecodeToken env data = Ok tok ->
  let r := getClient env config w in
  outcome r = Return {| clientConfig := config; clientToken := tok |}
  /\ world r = w
  /\ events r = [Fs (SysOpen "token.json"); Fs (SysClose "token.json")].
Proof.
  intros Hfs Hdec r; subst r.
  now rewrite (getClient_from_file config w data atime mtime tok Hfs Hdec).
Qed.

(** X14.  Without a usable token file, [getClient] reads the
    authorization code from the operator, exchanges it, which is its only
    request, and saves the token: afterwards [token.json] holds the
    encoded token followed by a newline, every other path is unchanged,
    and the client carries the new token. *)
Theorem getClient_asks_the_operator_and_saves
    (config : Config) (w : World) err code tok :
  outcome (tokenFromFile env "token.json" w) = Return (Err err) ->
  fmt_Scan env = Ok code ->
  config_Exchange env config code = Ok tok ->
  writable w "token.json" ->
  let r := getClient env config w in
  outcome r = Return {| clientConfig := config; clientToken := tok |}
  /\ netCalls (events r) = [NetExchange code]
  /\ (Stdin ∈ events r)
  /\ sameElsewhere "token.json" w (world r)
  /\ exists atime,
       fs (world r) !! "token.json"
       = Some (File (json_EncodeToken env tok +:+ nl) atime (clock w)).
Proof. apply getClient_from_web. Qed.

(** X15.  The token is asked for once: after a [getClient] that went to
    the operator, a second [getClient] finds the saved token, provided
    the codec reads back what it writes; it neither reads the standard
    input nor sends a request, and leaves the world as it is. *)
Theorem second_getClient_needs_no_operator
    (config config' : Config) (w : World) err code tok :
  outcome (tokenFromFile env "token.json" w) = Return (Err err) ->
  fmt_Scan env = Ok code ->
  config_Exchange env config code = Ok tok ->
  writable w "token.json" ->
  json_DecodeToken env (json_EncodeToken env tok +:+ nl) = Ok tok ->
  let first := getClient env config w in
  let second := getClient env config' (world first) in
  outcome second = Return {| clientConfig := config'; clientToken := tok |}
  /\ world second = world first
  /\ netCalls (events second) = []
  /\ (Stdin ∉ events second).
Proof.
  intros Hload Hscan Hex Hw Hcodec first second.
  destruct (getClient_from_web config w err code tok Hload Hscan Hex Hw)
    as (_ & _ & _ & _ & atime & Hfile).
  subst second.
  rewrite (getClient_from_file config' (world first) _ _ _ tok Hfile Hcodec).
  repeat split; try done. intros Hin. not_in_list Hin.
Qed.

(** X16.  Without a usable token file, [getClient] ends the process with
    status 1 and an unchanged world when the code cannot be read (then
    nothing goes to the network), when the exchange fails, and when the
    exchange succeeds but the token file cannot be opened for writing (the
    code is spent and the token is lost). *)
Theorem getClient_fatal_without_token (config : Config) (w : World) err :
  outcome (tokenFromFile env "token.json" w) = Return (Err err) ->
  let r := getClient env config w in
  (forall e, fmt_Scan env = Err e ->
     outcome r = Exit 1 /\ world r = w /\ netCalls (events r) = [])
  /\ (forall code e,
        fmt_Scan env = Ok code -> config_Exchange env config code = Err e ->
        outcome r = Exit 1 /\ world r = w
        /\ netCalls (events r) = [NetExchange code])
  /\ (forall code tok,
        fmt_Scan env = Ok code -> config_Exchange env config code = Ok tok ->
        ~ writable w "token.json" ->
        outcome r = Exit 1 /\ world r = w
        /\ netCalls (events r) = [NetExchange code]).
Proof.
  intros Hload r; subst r. apply tokenFromFile_fails in Hload.
  split; [|split].
  - intros e Hscan.
    destruct (fs w !! "token.json") as [[data ? ?| |]|] eqn:Hfs;
      run_using ltac:(first [progress unfold Handle | rewrite Hfs
                            | rewrite Hload | rewrite Hscan]); done.
  - intros code e Hscan Hex.
    destruct (fs w !! "token.json") as [[data ? ?| |]|] eqn:Hfs;
      run_using ltac:(first [progress unfold Handle | rewrite Hfs
                            | rewrite Hload | rewrite Hscan | rewrite Hex]); done.
  - intros code tok Hscan Hex Hw.
    destruct (fs w !! "token.json") as [[data ? ?| |]|] eqn:Hfs;
      try (destruct Hw; unfold writable, isFile; eauto 6; fail);
      run_using ltac:(first [progress unfold Handle | rewrite Hfs
                            | rewrite Hload | rewrite Hscan | rewrite Hex]); done.
Qed.

(** X17.  [tokenFromFile] never ends the process and never changes the
    world.  It closes the file exactly when [os.Open] opened it; when
    [os.Open] fails it returns that error without any other call. *)
Theorem tokenFromFile_closes_what_it_opens (file : string) (w : World) :
  let r := tokenFromFile env file w in
  world r = w
  /\ ((exists res, outcome r = Return res
                   /\ outcome (os_Open file w) = Return (Ok file)
                   /\ events r = [Fs (SysOpen file); Fs (SysClose file)])
      \/ (exists err, outcome r = Return (Err err)
                      /\ outcome (os_Open file w) = Return (Err err)
                      /\ events r = [Fs (SysOpen file)])).
Proof.
  destruct (fs w !! file) as [[data ? ?| |]|] eqn:Hfs;
    run_using ltac:(first [progress unfold Handle | rewrite Hfs]);
    (split; [done|]); eauto 10.
Qed.

End Authorization.

Section AuthorizationWitnesses.

Import Scenario Cases.

Lemma saved_token_is_loaded_witness :
  let saved := saveToken granted "token.json" token fresh in
  outcome saved = Return tt
  /\ sameElsewhere "token.json" fresh (world saved)
  /\ (exists atime,
        fs (world saved) !! "token.json"
        = Some (File (json_EncodeToken granted token +:+ nl) atime (clock fresh)))
  /\ outcome (tokenFromFile granted "token.json" (world saved)) = Return (Ok token).
Proof.
  apply (saved_token_is_loaded granted "token.json" token fresh).
  - reflexivity.
  - left. vm_compute. reflexivity.
Defined.

Lemma saveToken_fatal_when_not_writable_witness :
  let r := saveToken granted "token.json" token (fresh_with "token.json" Dir) in
  outcome r = Exit 1 /\ world r = fresh_with "token.json" Dir
  /\ forall data, Fs (SysWrite "token.json" data) ∉ events r.
Proof.
  apply (saveToken_fatal_when_not_writable granted "token.json" token
           (fresh_with "token.json" Dir)).
  intros [H|(data & atime & mtime & H)]; vm_compute in H; discriminate H.
Defined.

Lemma getClient_reuses_saved_token_witness :
  let w := fresh_with "token.json" (File ("ya29" +:+ nl) epoch epoch) in
  let r := getClient silent config w in
  outcome r = Return {| clientConfig := config; clientToken := token |}
  /\ world r = w
  /\ events r = [Fs (SysOpen "token.json"); Fs (SysClose "token.json")].
Proof.
  apply (getClient_reuses_saved_token silent config
           (fresh_with "token.json" (File ("ya29" +:+ nl) epoch epoch))
           ("ya29" +:+ nl) epoch epoch token).
  - vm_compute. reflexivity.
  - reflexivity.
Defined.

Lemma getClient_asks_the_operator_and_saves_witness :
  let r := getClient granted config fresh in
  outcome r = Return {| clientConfig := config; clientToken := token |}
  /\ netCalls (events r) = [NetExchange "4/code"]
  /\ (Stdin ∈ events r)
  /\ sameElsewhere "token.json" fresh (world r)
  /\ exists atime,
       fs (world r) !! "token.json"
       = Some (File (json_EncodeToken granted token +:+ nl) atime (clock fresh)).
Proof.
  apply (getClient_asks_the_operator_and_saves granted config fresh
           (PathError "open" "token.json" ENOENT) "4/code" token).
  - vm_compute. reflexivity.
  - reflexivity.
  - reflexivity.
  - left. vm_compute. reflexivity.
Defined.

Lemma second_getClient_needs_no_operator_witness :
  let first := getClient granted config fresh in
  let second := getClient granted config (world first) in
  outcome second = Return {| clientConfig := config; clientToken := token |}
  /\ world second = world first
  /\ netCalls (events second) = []
  /\ (Stdin ∉ events second).
Proof.
  apply (second_getClient_needs_no_operator granted config config fresh
           (PathError "open" "token.json" ENOENT) "4/code" token).
  - vm_compute. reflexivity.
  - reflexivity.
  - reflexivity.
  - left. vm_compute. reflexivity.
  - reflexivity.
Defined.

Lemma getClient_fatal_without_token_witness :
  (let r := getClient silent config fresh in
   outcome r = Exit 1 /\ world r = fresh /\ netCalls (events r) = [])
  /\ (let r := getClient refused config fresh in
      outcome r = Exit 1 /\ world r = fresh
      /\ netCalls (events r) = [NetExchange "4/code"])
  /\ (let r := getClient granted config (fresh_with "token.json" Dir) in
      outcome r = Exit 1 /\ world r = fresh_with "token.json" Dir
      /\ netCalls (events r) = [NetExchange "4/code"]).
Proof.
  split; [|split].
  - apply (proj1 (getClient_fatal_without_token silent config fresh
                    (PathError "open" "token.json" ENOENT)
                    ltac:(vm_compute; reflexivity))
             (errorString "unexpected newline")).
    reflexivity.
  - apply (proj1 (proj2 (getClient_fatal_without_token refused config fresh
                           (PathError "open" "token.json" ENOENT)
                           ltac:(vm_compute; reflexivity)))
             "4/code" (errorString "oauth2: cannot fetch token")); reflexivity.
  - apply (proj2 (proj2 (getClient_fatal_without_token granted config
                           (fresh_with "token.json" Dir)
                           (PathError "read" "token.json" EISDIR)
                           ltac:(vm_compute; reflexivity)))
             "4/code" token); [reflexivity | reflexivity |].
    intros [H|(data & atime & mtime & H)]; vm_compute in H; discriminate H.
Defined.

End AuthorizationWitnesses.

(** ** The first half of [main] and the listing *)

Section Early.

Context (env : Env) (prog srcDir targetDir credFile : string) (w : World).

(** X20.  An error of the Drive service on the folder query, or on the
    listing query once the folder is found, ends the run with status 1
    and the matching message, written as package log writes a line (with
    a newline appended unless the text of the error ends with one);
    nothing is downloaded and the loop makes no call. *)
Theorem listing_errors_are_fatal :
  let r := main env [prog; srcDir; targetDir; credFile] w in
  (forall err,
      remote_FilesList env (folderQuery srcDir) = Err err ->
      fatalBeforeSync srcDir (logLine ("Unable to retrieve folders: " +:+ Error err)) r)
  /\ (forall fl folder others err,
        remote_FilesList env (folderQuery srcDir) = Ok fl ->
        Files fl = folder :: others ->
        remote_FilesList env (childrenQuery (Id folder)) = Err err ->
        fatalBeforeSync srcDir (logLine ("Unable to retrieve files: " +:+ Error err)) r).
Proof.
  intros r; subst r; split.
  - intros err Hfl.
    apply (fatal_in_second_half _ _ _ _ _ _
             [Net (NetFilesList (folderQuery srcDir))]); [|done..].
    intros srv w1. run_using ltac:(rewrite Hfl). done.
  - intros fl folder others err Hfl Hfolder Hcl.
    apply (fatal_in_second_half _ _ _ _ _ _
             [Net (NetFilesList (folderQuery srcDir));
              Stderr (Sprintln ["Found folder"; Name folder; Id folder]);
              Net (NetFilesList (childrenQuery (Id folder)))]); [|done..].
    intros srv w1. unfold resolveAndSync.
    set (body := syncEntry env srv targetDir).
    run_using ltac:(first [rewrite Hfl | rewrite Hfolder | rewrite Hcl]). done.
Qed.

End Early.

Section EarlyWitnesses.

Import Scenario Cases.

Lemma listing_errors_are_fatal_witness :
  fatalBeforeSync "src"
    (logLine ("Unable to retrieve folders: " +:+ Error (errorString "googleapi: 403")))
    (main (envListing (Err (errorString "googleapi: 403")) (listOf [entry]))
       Args fresh)
  /\ fatalBeforeSync "src"
       (logLine ("Unable to retrieve files: " +:+ Error (errorString "googleapi: 500")))
       (main (envListing (listOf [folder]) (Err (errorString "googleapi: 500")))
          Args fresh).
Proof.
  split.
  - apply (proj1 (listing_errors_are_fatal
                    (envListing (Err (errorString "googleapi: 403")) (listOf [entry]))
                    "sync" "src" "out" "cred.json" fresh)).
    reflexivity.
  - apply (proj2 (listing_errors_are_fatal
                    (envListing (listOf [folder]) (Err (errorString "googleapi: 500")))
                    "sync" "src" "out" "cred.json" fresh)
             {| Files := [folder]; NextPageToken := "" |} folder []);
      reflexivity.
Defined.

End EarlyWitnesses.

(** ** The loop over the listing *)

Lemma syncEntry_done env srv targetDir f w :
  entryDone env f (outName targetDir f) w (syncEntry env srv targetDir f w).
Proof.
  unfold entryDone.
  destruct (fs w !! outName targetDir f) as [[| |[]]|] eqn:Hfs;
    run_using ltac:(first [progress unfold Handle | rewrite Hfs]); try done.
  - destruct (remote_Download env (Id f));
      run_using ltac:(first [progress unfold Handle | rewrite Hfs]); done.
  - destruct (remote_Download env (Id f));
      run_using ltac:(first [progress unfold Handle | rewrite Hfs]); done.
  - destruct (remote_Download env (Id f)) as [resp|];
      run_using ltac:(first [progress unfold Handle | rewrite Hfs
                            | rewrite lookup_insert_eq]); [|done].
    destruct (time_Parse env RFC3339Nano (ModifiedTime f));
      run_using ltac:(first [progress unfold Handle | rewrite Hfs
                            | rewrite lookup_insert_eq]);
      (split; [done|]); (split; [done|]);
      rewrite ?insert_insert_eq, append_nil; eauto.
Qed.

(** One iteration leaves every node as it is, except that a file may
    appear at the path of the entry where nothing was. *)
Lemma syncEntry_node env srv targetDir f w p :
  let r := syncEntry env srv targetDir f w in
  clock (world r) = clock w
  /\ (fs (world r) !! p = fs w !! p
      \/ p = outName targetDir f /\ fs w !! p = None /\ isFile (world r) p).
Proof.
  pose proof (syncEntry_done env srv targetDir f w) as H. unfold entryDone in H.
  intros r. fold r in H.
  destruct (fs w !! outName targetDir f) as [[| |[]]|] eqn:Hfs;
    try (destruct H as (_ & -> & _); split; [done | by left]).
  destruct H as (_ & _ & H).
  destruct (remote_Download env (Id f)) as [resp|];
    [|rewrite H; split; [done | by left]].
  destruct H as (atime & mtime & ->). unfold isFile, setFs; cbn [fs clock].
  split; [done|].
  destruct (decide (p = outName targetDir f)) as [->|Hp].
  - right. split; [done|]. split; [done|]. rewrite lookup_insert_eq. eauto.
  - left. now rewrite lookup_insert_ne.
Qed.

Lemma forEach_node env srv targetDir l w p :
  let r := forEach (syncEntry env srv targetDir) l w in
  clock (world r) = clock w
  /\ (fs (world r) !! p = fs w !! p
      \/ (exists f, f ∈ l /\ p = outName targetDir f)
         /\ fs w !! p = None /\ isFile (world r) p).
Proof.
  revert w; induction l as [|f l IH]; intros w; [by split; [|left]|].
  cbn zeta. rewrite forEach_cons.
  pose proof (syncEntry_node env srv targetDir f w p) as Hf. cbn zeta in Hf.
  destruct (syncEntry env srv targetDir f w) as [[[]| |] w1 evs]; cbn [outcome world events] in Hf.
  - rewrite world_after. destruct (IH w1) as (Hc & Hn).
    destruct Hf as (Hc1 & Hn1). split; [congruence|].
    destruct Hn as [Hn|((g & Hg & ->) & Hnone & Hfile)].
    + destruct Hn1 as [Hn1|(-> & Hnone & Hfile)].
      * left; congruence.
      * right. split; [exists f; split; [left|done]|]. split; [done|].
        unfold isFile in *. now rewrite Hn.
    + destruct Hn1 as [Hn1|(_ & _ & (? & ? & ? & Hfile1))]; [|congruence].
      right. split; [exists g; split; [by right|done]|]. split; [congruence|done].
  - destruct Hf as (Hc1 & [Hn1|(-> & Hnone & Hfile)]); split; try done; [by left|].
    right. split; [exists f; split; [left|done]|]. done.
  - destruct Hf as (Hc1 & [Hn1|(-> & Hnone & Hfile)]); split; try done; [by left|].
    right. split; [exists f; split; [left|done]|]. done.
Qed.

(** X5.  The loop changes no path other than the local paths of the
    entries it is given, and it leaves the clock alone: a path that is
    the sanitized path of no entry holds after the loop what it held
    before. *)
Theorem loop_touches_only_listed_paths env srv targetDir (l : list DriveFile) w p :
  (forall f, f ∈ l -> outName targetDir f <> p) ->
  let r := forEach (syncEntry env srv targetDir) l w in
  fs (world r) !! p = fs w !! p /\ clock (world r) = clock w.
Proof.
  intros Hp r. destruct (forEach_node env srv targetDir l w p) as (Hc & Hn).
  split; [|done]. destruct Hn as [Hn|((f & Hf & ->) & _)]; [done|].
  by destruct (Hp f Hf).
Qed.

Lemma downloads_app evs evs' : downloads (evs ++ evs') = downloads evs ++ downloads evs'.
Proof. apply omap_app. Qed.

Lemma syncEntry_outcome env srv targetDir f w :
  let r := syncEntry env srv targetDir f w in
  (outcome r = Return tt
   \/ outcome r = Panic nilDereference
      /\ exists e, fs w !! outName targetDir f = Some (Unreachable e) /\ e <> ENOENT)
  /\ (downloads (events r) = [] \/ downloads (events r) = [Id f]).
Proof.
  pose proof (syncEntry_done env srv targetDir f w) as H. unfold entryDone in H.
  intros r. fold r in H.
  destruct (fs w !! outName targetDir f) as [[| |[]]|] eqn:Hfs;
    destruct H as (Ho & H1 & H2); (split; [|by eauto]); eauto;
    right; (split; [done|]); eexists; (split; [done|]); done.
Qed.

(** X7.  The loop never ends the process by itself: it returns, or it
    panics with the nil dereference of [fileExists].  It returns whenever
    no local path of an entry fails to resolve with an error other than
    "not exist". *)
Theorem loop_returns_or_panics env srv targetDir (l : list DriveFile) w :
  let r := forEach (syncEntry env srv targetDir) l w in
  (outcome r = Return tt \/ outcome r = Panic nilDereference)
  /\ ((forall f e, f ∈ l ->
         fs w !! outName targetDir f = Some (Unreachable e) -> e = ENOENT) ->
      outcome r = Return tt).
Proof.
  revert w; induction l as [|f l IH]; intros w; [by split; [left|]|].
  cbn zeta. rewrite forEach_cons.
  destruct (syncEntry_outcome env srv targetDir f w) as (Ho & _).
  pose proof (fun p => syncEntry_node env srv targetDir f w p) as Hn.
  cbn zeta in Ho, Hn.
  destruct (syncEntry env srv targetDir f w) as [[[]| |] w1 evs]; cbn [outcome world events] in Ho, Hn.
  - rewrite outcome_after. destruct (IH w1) as (IH1 & IH2). split; [done|].
    intros Hok. apply IH2. intros g e Hg Hge.
    destruct (Hn (outName targetDir g)) as (_ & [Heq|(_ & _ & (? & ? & ? & Hfile))]);
      [|congruence].
    apply (Hok g e); [by right | congruence].
  - destruct Ho as [Ho|(Ho & _)]; discriminate Ho.
  - destruct Ho as [Ho|(Ho & e & He & Hne)]; [discriminate Ho|].
    split; [by right|]. intros Hok. destruct Hne. apply (Hok f e); [left | done].
Qed.

(** The download requests of the loop are requests for entries of the
    listing, in its order, at most one for each. *)
Lemma forEach_downloads_sublist env srv targetDir (l : list DriveFile) w :
  sublist (downloads (events (forEach (syncEntry env srv targetDir) l w)))
          (Id <$> l).
Proof.
  revert w; induction l as [|f l IH]; intros w; [constructor|].
  rewrite forEach_cons.
  destruct (syncEntry_outcome env srv targetDir f w) as (_ & Hd). cbn zeta in Hd.
  destruct (syncEntry env srv targetDir f w) as [[[]| |] w1 evs];
    cbn [events] in Hd |- *; rewrite fmap_cons.
  - rewrite events_after, downloads_app.
    destruct Hd as [->| ->]; [apply sublist_cons | apply sublist_skip]; apply IH.
  - destruct Hd as [->| ->]; [apply sublist_nil_l|].
    apply sublist_skip, sublist_nil_l.
  - destruct Hd as [->| ->]; [apply sublist_nil_l|].
    apply sublist_skip, sublist_nil_l.
Qed.

Section LoopWitnesses.

Import Scenario Cases.

Lemma loop_touches_only_listed_paths_witness :
  let r := forEach (syncEntry env srv "out") [entry; undated] fresh in
  fs (world r) !! "cred.json" = fs fresh !! "cred.json"
  /\ clock (world r) = clock fresh.
Proof.
  apply (loop_touches_only_listed_paths env srv "out" [entry; undated] fresh
           "cred.json").
  intros f Hf.
  apply elem_of_cons in Hf as [->|Hf]; [vm_compute; discriminate|].
  apply elem_of_cons in Hf as [->|Hf]; [vm_compute; discriminate|].
  by apply elem_of_nil in Hf.
Defined.

Lemma loop_returns_or_panics_witness :
  outcome (forEach (syncEntry env srv "out") [entry; undated] fresh) = Return tt.
Proof.
  apply (proj2 (loop_returns_or_panics env srv "out" [entry; undated] fresh)).
  intros f e Hf H.
  apply elem_of_cons in Hf as [->|Hf]; [vm_compute in H; discriminate H|].
  apply elem_of_cons in Hf as [->|Hf]; [vm_compute in H; discriminate H|].
  by apply elem_of_nil in Hf.
Defined.

End LoopWitnesses.

(** ** The whole run, again *)

Ltac keeps_tac :=
  unfold keeps; cbn [fs world]; intros ? ? ? ?;
  rewrite ?lookup_insert; repeat case_decide; subst; congruence.

Lemma prologue_keeps env srcDir targetDir credFile k w :
  handsOverKeeping w k (prologue env srcDir targetDir credFile k w).
Proof.
  run_using ltac:(idtac; lazymatch goal with
                  | |- context [match k ?srv ?w1 with _ => _ end] => fail
                  | _ => first [progress unfold Handle | branch]
                  end).
  all: lazymatch goal with
       | |- context [match ?k' ?srv ?w1 with _ => _ end] =>
           right; exists srv, w1;
           destruct (k' srv w1) as [o w2 evs'];
           lazymatch goal with
           | |- context [mkRun o w2 ?l] =>
               let p := events_before l evs' in exists p
           end;
           split; [keeps_tac | reflexivity]
       | _ => left; split; [done | keeps_tac]
       end.
Qed.

Lemma downloads_cons e evs :
  downloads (e :: evs) =
  match e with
  | Net (NetDownload fileId) => fileId :: downloads evs
  | _ => downloads evs
  end.
Proof. destruct e as [| | | |[]]; reflexivity. Qed.

Lemma resolveAndSync_keeps env srcDir targetDir srv w p node :
  fs w !! p = Some node ->
  fs (world (resolveAndSync env srcDir targetDir srv w)) !! p = Some node.
Proof.
  intros Hnode. unfold resolveAndSync.
  set (body := syncEntry env srv targetDir). run.
  destruct (remote_FilesList env (folderQuery srcDir)) as [[[|folder others] ?]|];
    run; try done.
  destruct (remote_FilesList env (childrenQuery (Id folder))) as [[[|f l] ?]|];
    run; try done.
  destruct (forEach_node env srv targetDir (f :: l) w p) as (_ & Hn).
  fold body in Hn.
  destruct (forEach body (f :: l) w) as [o w' evs]; cbn [world] in Hn |- *.
  destruct Hn as [Hn|(_ & Hnone & _)]; congruence.
Qed.

(** X6.  Whatever the arguments, the answers of the outside world and the
    way the run ends, [main] leaves every regular file and every
    directory that exists when it starts as it is, the token file apart:
    it only adds the target directory and files where there was
    nothing. *)
Theorem main_never_changes_what_exists
    (env : Env) (Args : list string) (w : World) (p : string) (node : Node) :
  p <> "token.json" ->
  fs w !! p = Some node ->
  fs (world (main env Args w)) !! p = Some node.
Proof.
  intros Hp Hnode.
  destruct Args as [|prog [|srcDir [|targetDir [|credFile [|extra Args]]]]];
    try done.
  rewrite main_stages.
  destruct (prologue_keeps env srcDir targetDir credFile
              (resolveAndSync env srcDir targetDir) w)
    as [(_ & Hk)|(srv & w1 & evs & Hk & ->)]; [by apply Hk|].
  rewrite world_after. apply resolveAndSync_keeps. by apply Hk.
Qed.

Lemma resolveAndSync_downloads env srcDir targetDir srv w fl folder others cl :
  remote_FilesList env (folderQuery srcDir) = Ok fl ->
  Files fl = folder :: others ->
  remote_FilesList env (childrenQuery (Id folder)) = Ok cl ->
  sublist (downloads (events (resolveAndSync env srcDir targetDir srv w)))
          (Id <$> Files cl).
Proof.
  intros Hfl Hfolder Hcl. unfold resolveAndSync.
  set (body := syncEntry env srv targetDir).
  run_using ltac:(first [rewrite Hfl | rewrite Hfolder | rewrite Hcl]).
  destruct (Files cl) as [|f l]; run; [apply sublist_nil_l|].
  pose proof (forEach_downloads_sublist env srv targetDir (f :: l) w) as H.
  fold body in H.
  destruct (forEach body (f :: l) w) as [o w' evs]; cbn [events] in H |- *.
  rewrite !downloads_cons; cbv beta iota. exact H.
Qed.

(** X8.  The download requests of a run of [main] are requests for files
    of the answer to the listing query, in the order of that answer and
    at most one for each file: nothing is requested twice, and nothing
    that was not listed. *)
Theorem main_downloads_only_listed_entries
    (env : Env) (prog srcDir targetDir credFile : string) (w : World)
    fl folder others cl :
  remote_FilesList env (folderQuery srcDir) = Ok fl ->
  Files fl = folder :: others ->
  remote_FilesList env (childrenQuery (Id folder)) = Ok cl ->
  sublist (downloads (events (main env [prog; srcDir; targetDir; credFile] w)))
          (Id <$> Files cl).
Proof.
  intros Hfl Hfolder Hcl. rewrite main_stages.
  destruct (prologue_run env srcDir targetDir credFile
              (resolveAndSync env srcDir targetDir) w)
    as [(_ & _ & Hd & _)|(srv & w1 & evs & (_ & Hd & _) & ->)].
  - rewrite Hd. apply sublist_nil_l.
  - rewrite events_after, downloads_app, Hd.
    now apply (resolveAndSync_downloads _ _ _ _ _ fl folder others cl).
Qed.

Section RunWitnesses.

Import Scenario Cases.

Lemma main_never_changes_what_exists_witness :
  let old := File "old" epoch epoch in
  fs (world (main env Args (having old))) !! "out/B_1_.dat" = Some old.
Proof.
  apply (main_never_changes_what_exists env Args (having (File "old" epoch epoch))
           "out/B_1_.dat" (File "old" epoch epoch)).
  - discriminate.
  - vm_compute. reflexivity.
Defined.

Lemma main_downloads_only_listed_entries_witness :
  sublist (downloads (events (main env Args fresh))) (Id <$> [entry; undated]).
Proof.
  apply (main_downloads_only_listed_entries env "sync" "src" "out" "cred.json" fresh
           {| Files := [folder]; NextPageToken := "" |} folder []
           {| Files := [entry; undated]; NextPageToken := "" |}); reflexivity.
Defined.

End RunWitnesses.
